(** * goldfish.chat: the per-user bounded conversation store

    A shallow embedding of [worker/src/durable-objects/UserChatStorage.ts]
    (the Durable Object that keeps at most three conversations per user)
    together with the request shapes the worker routes send to it
    ([worker/src/routes/chat.ts], the conversations route), and the
    properties of the store that follow from the code. *)

From stdpp Require Import base list strings sorting gmap.
From Stdlib Require Import ZArith Lia Ascii.

Local Open Scope string_scope.
Local Open Scope Z_scope.

(** ** Data model ([worker/src/types]) *)

Inductive Role := user | assistant.

Record Message := {
  role : Role;
  content : string;
  timestamp : Z;
}.

Record Conversation := {
  id : string;
  title : string;
  model : string;
  messages : list Message;
  createdAt : Z;
  updatedAt : Z;
}.

Inductive Theme := light | dark.

Record UserPreferences := {
  defaultModel : string;
  theme : Theme;
}.

Record UserStorage := {
  chats : list Conversation;
  preferences : UserPreferences;
}.

(** [Partial<UserPreferences>]: every field may be missing. *)
Module Partial.
Record t := {
  defaultModel : option string;
  theme : option Theme;
}.
End Partial.

(** The JSON body of [POST /chats]. *)
Module Body.
Record t := {
  conversationId : option string;
  message : Message;
  model : string;
}.
End Body.

#[global] Instance Role_eq_dec : EqDecision Role.
Proof. solve_decision. Defined.
#[global] Instance Message_eq_dec : EqDecision Message.
Proof. solve_decision. Defined.
#[global] Instance Conversation_eq_dec : EqDecision Conversation.
Proof. solve_decision. Defined.
#[global] Instance Theme_eq_dec : EqDecision Theme.
Proof. solve_decision. Defined.
#[global] Instance UserPreferences_eq_dec : EqDecision UserPreferences.
Proof. solve_decision. Defined.
#[global] Instance UserStorage_eq_dec : EqDecision UserStorage.
Proof. solve_decision. Defined.

Definition MAX_CHATS : nat := 3.

(** ** JavaScript helpers used by the handler *)

(** [s.startsWith(p)] *)
Fixpoint startsWith (s p : string) {struct p} : bool :=
  match p, s with
  | EmptyString, _ => true
  | String _ _, EmptyString => false
  | String c p', String d s' => if decide (c = d) then startsWith s' p' else false
  end.

(** [s.split(sep)] for a one-character separator: the pieces between the
    separators, never an empty array. *)
Fixpoint split (sep : ascii) (s : string) : list string :=
  match s with
  | EmptyString => [EmptyString]
  | String c s' =>
      if decide (c = sep) then EmptyString :: split sep s'
      else match split sep s' with
           | [] => [String c EmptyString]
           | w :: ws => String c w :: ws
           end
  end.

(** Whether the character [c] occurs in [s]. *)
Fixpoint occurs (c : ascii) (s : string) : bool :=
  match s with
  | EmptyString => false
  | String d s' => bool_decide (d = c) || occurs c s'
  end.

(** [s.slice(0, n)], which counts UTF-16 units: for a string of ASCII
    characters, where a character of the model is one unit of the
    code's string. *)
Definition slice0 (n : nat) (s : string) : string := String.substring 0 n s.

(** A string of ASCII characters only. *)
Fixpoint plainText (s : string) : bool :=
  match s with
  | EmptyString => true
  | String c s' => bool_decide (nat_of_ascii c < 128)%nat && plainText s'
  end.

(** Truthiness of an optional string: [undefined] and [''] are falsy. *)
Definition truthy (o : option string) : bool :=
  match o with
  | Some s => bool_decide (s ≠ "")
  | None => false
  end.

(** [Array.prototype.sort(cmp)]: the sort is stable, and a stable sort by a
    comparator that orders by a key has one possible result; it is computed
    here by insertion, an element going before the first one it does not
    compare greater than. *)
Fixpoint insertSorted {A} (cmp : A → A → Z) (x : A) (l : list A) : list A :=
  match l with
  | [] => [x]
  | y :: l' => if bool_decide (cmp x y ≤ 0) then x :: l else y :: insertSorted cmp x l'
  end.

Definition sort {A} (cmp : A → A → Z) (l : list A) : list A :=
  foldr (insertSorted cmp) [] l.

(** [(a, b) => a.updatedAt - b.updatedAt] *)
Definition byUpdatedAt (a b : Conversation) : Z := updatedAt a - updatedAt b.

(** [array.shift()]: drop the first element. *)
Definition shift {A} (l : list A) : list A := tail l.

(** [{ ...prefs, ...partial }] *)
Definition mergePreferences (prefs : UserPreferences) (p : Partial.t) : UserPreferences :=
  {| defaultModel := default (defaultModel prefs) (Partial.defaultModel p);
     theme := default (theme prefs) (Partial.theme p) |}.

(** ** The Durable Object and its platform *)

(** [storage] is the in-memory field [this.storage] ([null] until first
    use); [data] is what the durable storage holds under the key ['data']. *)
Record UserChatStorage := {
  storage : option UserStorage;
  data : option UserStorage;
}.

(** What the platform answers while one request is handled: whether
    [state.storage.get] and [state.storage.put] succeed, the value of
    [crypto.randomUUID()], and the successive readings of [Date.now()]. *)
Record Platform := {
  storageGet : bool;
  storagePut : bool;
  randomUUID : string;
  dateNow : nat → Z;
}.

Inductive Json :=
  | NoJson
  | PostJson (b : Body.t)
  | PrefsJson (p : Partial.t).

Record Request := {
  method : string;
  pathname : string;
  json : Json;
}.

Inductive Payload :=
  | ConversationsPayload (conversations : list Conversation)
  | ChatPayload (chat : Conversation)
  | PreferencesPayload (prefs : UserPreferences)
  | SuccessPayload
  | ErrorPayload (error : string).

Record Response := {
  status : Z;
  payload : Payload;
}.

(** [Response.json(x)] and [Response.json(x, { status })] *)
Definition jsonResponse (p : Payload) : Response := {| status := 200; payload := p |}.
Definition jsonStatus (p : Payload) (s : Z) : Response := {| status := s; payload := p |}.

(** ** Handler code: state of the object threaded, exceptions explicit *)

Inductive Outcome (A : Type) :=
  | Return (a : A)
  | Throw.
Arguments Return {A} a.
Arguments Throw {A}.

Definition Async (A : Type) : Type := UserChatStorage → UserChatStorage * Outcome A.

#[global] Instance Async_ret : MRet Async := λ A a d, (d, Return a).
#[global] Instance Async_bind : MBind Async := λ A B f m d,
  match m d with
  | (d', Return a) => f a d'
  | (d', Throw) => (d', Throw)
  end.

(** [try { body } catch (error) { handler }]; what the body did to the
    object before it threw stays done. *)
Definition tryCatch {A} (body : Async A) (handler : A) : UserChatStorage → UserChatStorage * A :=
  λ d, match body d with
       | (d', Return a) => (d', a)
       | (d', Throw) => (d', handler)
       end.

Definition initialStorage : UserStorage :=
  {| chats := [];
     preferences := {| defaultModel := "gpt-4o"; theme := dark |} |}.

Section Handler.
Variable env : Platform.

(** [getStorage()] *)
Definition getStorage : Async UserStorage := λ d,
  match storage d with
  | Some s => (d, Return s)
  | None =>
      if storageGet env then
        let s := default initialStorage (data d) in
        ({| storage := Some s; data := data d |}, Return s)
      else (d, Throw)
  end.

(** [saveStorage()] *)
Definition saveStorage : Async () := λ d,
  if storagePut env then ({| storage := storage d; data := storage d |}, Return ())
  else (d, Throw).

(** Assignments through the local [storage], which is the object
    [this.storage] refers to. *)
Definition setChats (l : list Conversation) : Async () := λ d,
  ({| storage := (λ s, {| chats := l; preferences := preferences s |}) <$> storage d;
      data := data d |}, Return ()).

Definition setPreferencesField (p : UserPreferences) : Async () := λ d,
  ({| storage := (λ s, {| chats := chats s; preferences := p |}) <$> storage d;
      data := data d |}, Return ()).

(** [this.storage = s] *)
Definition assignStorage (s : UserStorage) : Async () := λ d,
  ({| storage := Some s; data := data d |}, Return ()).

(** [await request.json() as T] *)
Definition postJson (request : Request) : Async Body.t := λ d,
  match json request with
  | PostJson b => (d, Return b)
  | _ => (d, Throw)
  end.

Definition prefsJson (request : Request) : Async Partial.t := λ d,
  match json request with
  | PrefsJson p => (d, Return p)
  | _ => (d, Throw)
  end.

(** [chats.find(c => c.id === id)], with the index for the update in place. *)
Definition findChat (ident : option string) (l : list Conversation) : option (nat * Conversation) :=
  list_find (λ c, Some (id c) = ident) l.

(** [chat.messages.push(message); chat.updatedAt = Date.now()] *)
Definition pushMessage (chat : Conversation) (m : Message) : Conversation :=
  {| id := id chat;
     title := title chat;
     model := model chat;
     messages := messages chat ++ [m];
     createdAt := createdAt chat;
     updatedAt := dateNow env 0 |}.

(** The object literal of the new conversation. *)
Definition newChat (body : Body.t) : Conversation :=
  {| id := randomUUID env;
     title := slice0 50 (content (Body.message body)) +:+ "...";
     model := Body.model body;
     messages := [Body.message body];
     createdAt := dateNow env 0;
     updatedAt := dateNow env 1 |}.

(** [if (chats.length >= MAX_CHATS) { chats.sort(...); chats.shift(); }] *)
Definition evictOldest (l : list Conversation) : list Conversation :=
  if bool_decide (MAX_CHATS ≤ length l)%nat then shift (sort byUpdatedAt l) else l.

Definition notFound (msg : string) : Response := jsonStatus (ErrorPayload msg) 404.

(** The body of the [try] block of [fetch]. *)
Definition handle (request : Request) : Async Response :=
  let method := method request in
  let pathname := pathname request in
  if bool_decide (method = "GET") && bool_decide (pathname = "/chats") then
    storage ← getStorage;
    mret (jsonResponse (ConversationsPayload (chats storage)))
  else if bool_decide (method = "GET") && startsWith pathname "/chats/" then
    let ident := split "/" pathname !! 2%nat in
    storage ← getStorage;
    match findChat ident (chats storage) with
    | None => mret (notFound "Chat not found")
    | Some (_, chat) => mret (jsonResponse (ChatPayload chat))
    end
  else if bool_decide (method = "POST") && bool_decide (pathname = "/chats") then
    body ← postJson request;
    storage ← getStorage;
    if truthy (Body.conversationId body) then
      match findChat (Body.conversationId body) (chats storage) with
      | None => mret (notFound "Chat not found")
      | Some (i, found) =>
          let chat := pushMessage found (Body.message body) in
          _ ← setChats (<[i := chat]> (chats storage));
          _ ← saveStorage;
          mret (jsonResponse (ChatPayload chat))
      end
    else
      let chat := newChat body in
      _ ← setChats (evictOldest (chats storage) ++ [chat]);
      _ ← saveStorage;
      mret (jsonResponse (ChatPayload chat))
  else if bool_decide (method = "DELETE") && startsWith pathname "/chats/" then
    let ident := split "/" pathname !! 2%nat in
    storage ← getStorage;
    match findChat ident (chats storage) with
    | None => mret (notFound "Chat not found")
    | Some (index, _) =>
        _ ← setChats (delete index (chats storage));
        _ ← saveStorage;
        mret (jsonResponse SuccessPayload)
    end
  else if bool_decide (method = "DELETE") && bool_decide (pathname = "/clear") then
    _ ← assignStorage initialStorage;
    _ ← saveStorage;
    mret (jsonResponse SuccessPayload)
  else if bool_decide (pathname = "/preferences") then
    storage ← getStorage;
    if bool_decide (method = "GET") then
      mret (jsonResponse (PreferencesPayload (preferences storage)))
    else if bool_decide (method = "PUT") then
      prefs ← prefsJson request;
      let merged := mergePreferences (preferences storage) prefs in
      _ ← setPreferencesField merged;
      _ ← saveStorage;
      mret (jsonResponse (PreferencesPayload merged))
    else mret (notFound "Not found")
  else mret (notFound "Not found").

(** [fetch(request)] *)
Definition fetch (request : Request) : UserChatStorage → UserChatStorage * Response :=
  tryCatch (handle request) (jsonStatus (ErrorPayload "Internal error") 500).

End Handler.

(** ** The operations of the store, as the worker routes request them

    [chat.ts] posts [{ conversationId, message, model }] to [/chats] and
    reads a conversation back from [/chats/${id}]; the conversations route
    lists, reads, deletes and clears. The pathname of [http://do/chats/${id}]
    is ["/chats/" + id] for an identifier made of plain characters. *)

Definition appendMessage (conversationId : option string) (m : Message) (modelId : string) : Request :=
  {| method := "POST"; pathname := "/chats";
     json := PostJson {| Body.conversationId := conversationId;
                         Body.message := m;
                         Body.model := modelId |} |}.

Definition listConversations : Request :=
  {| method := "GET"; pathname := "/chats"; json := NoJson |}.

Definition getConversation (ident : string) : Request :=
  {| method := "GET"; pathname := "/chats/" +:+ ident; json := NoJson |}.

Definition deleteConversation (ident : string) : Request :=
  {| method := "DELETE"; pathname := "/chats/" +:+ ident; json := NoJson |}.

Definition clearAll : Request :=
  {| method := "DELETE"; pathname := "/clear"; json := NoJson |}.

Definition getPreferences : Request :=
  {| method := "GET"; pathname := "/preferences"; json := NoJson |}.

Definition setPreferences (p : Partial.t) : Request :=
  {| method := "PUT"; pathname := "/preferences"; json := PrefsJson p |}.

(** A Durable Object that has never been used: nothing in memory, nothing
    in durable storage. *)
Definition fresh : UserChatStorage := {| storage := None; data := None |}.

(** What [getStorage()] yields when it succeeds, and the records in it. *)
Definition current (d : UserChatStorage) : UserStorage :=
  match storage d with
  | Some s => s
  | None => default initialStorage (data d)
  end.

Definition records (d : UserChatStorage) : list Conversation := chats (current d).

(** The records in the durable copy. *)
Definition persisted (d : UserChatStorage) : list Conversation :=
  chats (default initialStorage (data d)).

(** [getStorage()] needs the durable storage only while nothing is cached. *)
Definition readable (env : Platform) (d : UserChatStorage) : bool :=
  match storage d with
  | Some _ => true
  | None => storageGet env
  end.

(** Requests handled one after the other, each under its own platform
    answers: the final object with the responses, and the object after
    each request. *)
Fixpoint run (d : UserChatStorage) (calls : list (Platform * Request)) : UserChatStorage * list Response :=
  match calls with
  | [] => (d, [])
  | (env, request) :: rest =>
      let '(d1, response) := fetch env request d in
      let '(d2, responses) := run d1 rest in
      (d2, response :: responses)
  end.

Fixpoint states (d : UserChatStorage) (calls : list (Platform * Request)) : list UserChatStorage :=
  match calls with
  | [] => []
  | (env, request) :: rest =>
      let d1 := (fetch env request d).1 in
      d1 :: states d1 rest
  end.

(** A call that starts a new conversation. *)
Definition creation (call : Platform * Message * string) : Platform * Request :=
  (call.1.1, appendMessage None call.1.2 call.2).

(** The record a creation under [env] builds from its message and model. *)
Definition created (env : Platform) (m : Message) (modelId : string) : Conversation :=
  newChat env {| Body.conversationId := None; Body.message := m; Body.model := modelId |}.

Definition internalError : Response := jsonStatus (ErrorPayload "Internal error") 500.

(** The object after a mutation of the cached storage to [s], whose save
    then succeeds or throws. *)
Definition committed (env : Platform) (d : UserChatStorage) (s : UserStorage) (ok : Response)
  : UserChatStorage * Response :=
  if storagePut env then ({| storage := Some s; data := Some s |}, ok)
  else ({| storage := Some s; data := data d |}, internalError).

(** The same platform with a durable storage that accepts the write. *)
Definition putWorks (env : Platform) : Platform :=
  {| storageGet := storageGet env;
     storagePut := true;
     randomUUID := randomUUID env;
     dateNow := dateNow env |}.

(** The operations that change the store. *)
Inductive Mutation :=
  | AppendMessage (conversationId : option string) (m : Message) (modelId : string)
  | DeleteConversation (ident : string)
  | ClearAll
  | SetPreferences (p : Partial.t).

Definition requestOf (op : Mutation) : Request :=
  match op with
  | AppendMessage conversationId m modelId => appendMessage conversationId m modelId
  | DeleteConversation ident => deleteConversation ident
  | ClearAll => clearAll
  | SetPreferences p => setPreferences p
  end.

Definition withChats (s : UserStorage) (l : list Conversation) : UserStorage :=
  {| chats := l; preferences := preferences s |}.

(** Sample data: platforms whose storage works or whose writes fail,
    identifiers as [crypto.randomUUID()] formats them, and a store that a
    damaged durable copy has left with four records. *)
Definition working (uuid : string) (now : Z) : Platform :=
  {| storageGet := true; storagePut := true; randomUUID := uuid; dateNow := λ _, now |}.

Definition writeFails (uuid : string) (now : Z) : Platform :=
  {| storageGet := true; storagePut := false; randomUUID := uuid; dateNow := λ _, now |}.

Definition uuid1 : string := "1b4e28ba-2fa1-41d2-883f-0016d3cca427".
Definition uuid2 : string := "6fa459ea-ee8a-4ca4-894e-db77e160355e".
Definition uuid3 : string := "9c5b94b1-35ad-49bb-b118-8e8fc24abf80".
Definition uuid4 : string := "e902893a-9d22-4c7e-a7b8-d6e313b71d9f".
Definition uuid5 : string := "16fd2706-8baf-433b-82eb-8c7fada847da".

Definition hello : Message := {| role := user; content := "hello"; timestamp := 1000 |}.
Definition again : Message := {| role := user; content := "and again"; timestamp := 3500 |}.

Definition twoChats : UserChatStorage :=
  (run fresh [creation (working uuid1 1000, hello, "gpt-4o");
              creation (working uuid2 2000, hello, "claude-3-5-sonnet")]).1.

Definition fourChats : UserChatStorage :=
  {| storage := None;
     data := Some (withChats initialStorage
                     [created (working uuid1 1000) hello "gpt-4o";
                      created (working uuid2 2000) hello "gpt-4o";
                      created (working uuid3 3000) hello "gpt-4o";
                      created (working uuid4 4000) hello "gpt-4o"]) |}.

(** [v] is not newer than any record of [l]. *)
Definition leads (v : Conversation) (l : list Conversation) : Prop :=
  ∀ c, c ∈ l → updatedAt v ≤ updatedAt c.

(** The capacity bound, on the records in memory and on the durable copy. *)
Definition bounded (d : UserChatStorage) : Prop :=
  (length (records d) ≤ MAX_CHATS)%nat ∧ (length (persisted d) ≤ MAX_CHATS)%nat.

(** What one request may do to the cached storage [s] of an object whose
    records are [l]: nothing, an append in place, a creation after the
    eviction, a removal, the reset, or a merge of preferences. *)
Inductive Change (env : Platform) (s : UserStorage) : UserStorage → Prop :=
  | Unchanged : Change env s s
  | Appended i found m :
      chats s !! i = Some found →
      Change env s (withChats s (<[i := pushMessage env found m]> (chats s)))
  | Created body :
      Change env s (withChats s (evictOldest (chats s) ++ [newChat env body]))
  | Removed i :
      (i < length (chats s))%nat →
      Change env s (withChats s (delete i (chats s)))
  | Cleared : Change env s initialStorage
  | Merged p :
      Change env s {| chats := chats s; preferences := mergePreferences (preferences s) p |}.

(** The identifiers of the stored records, in order. *)
Definition ids (d : UserChatStorage) : list string := id <$> records d.

(** The object as the next instance finds it after the platform has
    dropped the one in memory: the cache is gone, the durable copy stays. *)
Definition restart (d : UserChatStorage) : UserChatStorage :=
  {| storage := None; data := data d |}.

(** No two records carry the same identifier, in memory and in the
    durable copy. *)
Definition unique (d : UserChatStorage) : Prop :=
  NoDup (ids d) ∧ NoDup (id <$> persisted d).

(** Along a sequence of requests, the identifier the platform would draw
    is each time one that no stored record carries. *)
Fixpoint drawsFresh (d : UserChatStorage) (calls : list (Platform * Request)) : Prop :=
  match calls with
  | [] => True
  | (env, request) :: rest =>
      (randomUUID env ∉ ids d) ∧ drawsFresh (fetch env request d).1 rest
  end.

(** A call that appends to the conversation [cid]. *)
Definition appendTo (cid : string) (call : Platform * Message * string) : Platform * Request :=
  (call.1.1, appendMessage (Some cid) call.1.2 call.2).

(** The order the sort establishes. *)
Definition ascending : list Conversation → Prop :=
  Sorted (λ a b, updatedAt a ≤ updatedAt b).

(** ** The worker routes in front of the object

    [routes/conversations.ts] and [routes/chat.ts] reach the object of the
    signed-in user through [stub.fetch]; each such call is one [fetch] of
    the object, under its own platform answers. *)

(** [response.ok] *)
Definition ok (response : Response) : bool :=
  bool_decide (200 ≤ status response ≤ 299).

(** [(await response.json()).id] and [.messages]: present on a
    conversation, [undefined] on any other body. *)
Definition payloadId (p : Payload) : option string :=
  match p with
  | ChatPayload chat => Some (id chat)
  | _ => None
  end.

Definition payloadMessages (p : Payload) : option (list Message) :=
  match p with
  | ChatPayload chat => Some (messages chat)
  | _ => None
  end.

(** [`${x}`] for a string that may be [undefined]. *)
Definition interpolate (o : option string) : string := default "undefined" o.

(** The routes of [conversationsRoute]; [c.json(x)] answers 200. The
    routes for one conversation build the URL [http://do/chats/${chatId}],
    of which the object sees [new URL(request.url).pathname]: the
    platform's URL parser is the parameter [pathnameOf]. *)
Definition listRoute (env : Platform) (d : UserChatStorage) : UserChatStorage * Response :=
  let '(d1, response) := fetch env listConversations d in
  (d1, jsonResponse (payload response)).

Definition getRoute (pathnameOf : string → string)
  (env : Platform) (chatId : string) (d : UserChatStorage)
  : UserChatStorage * Response :=
  let request := {| method := "GET";
                    pathname := pathnameOf ("http://do/chats/" +:+ chatId);
                    json := NoJson |} in
  let '(d1, response) := fetch env request d in
  if negb (ok response) then (d1, jsonStatus (ErrorPayload "Chat not found") 404)
  else (d1, jsonResponse (payload response)).

Definition deleteRoute (pathnameOf : string → string)
  (env : Platform) (chatId : string) (d : UserChatStorage)
  : UserChatStorage * Response :=
  let request := {| method := "DELETE";
                    pathname := pathnameOf ("http://do/chats/" +:+ chatId);
                    json := NoJson |} in
  let '(d1, response) := fetch env request d in
  (d1, jsonResponse (payload response)).

Definition clearRoute (env : Platform) (d : UserChatStorage) : UserChatStorage * Response :=
  let '(d1, response) := fetch env clearAll d in
  (d1, jsonResponse (payload response)).

(** The body of [POST /api/chat], once it has the types of
    [ChatRequestSchema]. *)
Module ChatRequest.
Record t := {
  conversationId : option string;
  message : string;
  model : string;
}.
End ChatRequest.

(** What surrounds one run of [chatRoute]: the verdict of zod's [uuid()]
    check, the readings of [Date.now()] in the worker, the platform
    answers during the three calls of the object, and [callAI], which
    hands chunks to [onChunk] one after the other and then returns
    ([true]) or throws ([false]). *)
Record Worker := {
  isUuid : string → bool;
  workerNow : nat → Z;
  onSave : Platform;
  onHistory : Platform;
  onReply : Platform;
  callAI : string → option (list Message) → list string * bool;
}.

(** The events written to the stream: [{ content: chunk }] and [[DONE]]. *)
Inductive SSE :=
  | ContentEvent (content : string)
  | DoneEvent.

(** The answer of [chatRoute]: 400 'Invalid request', or the stream with
    what the callback wrote and whether it ran to its end. *)
Inductive ChatResponse :=
  | InvalidRequest
  | Stream (events : list SSE) (finished : bool).

(** [ChatRequestSchema.safeParse(body).success] *)
Definition valid (w : Worker) (r : ChatRequest.t) : bool :=
  match ChatRequest.conversationId r with
  | Some c => isUuid w c
  | None => true
  end
  && bool_decide (1 ≤ Z.of_nat (String.length (ChatRequest.message r)))
  && bool_decide (Z.of_nat (String.length (ChatRequest.message r)) ≤ 10000).

(** [fullResponse += chunk], chunk after chunk from ['']. *)
Definition fullResponse (chunks : list string) : string :=
  foldl (λ acc chunk, acc +:+ chunk) "" chunks.

Definition userMessage (w : Worker) (r : ChatRequest.t) : Message :=
  {| role := user; content := ChatRequest.message r; timestamp := workerNow w 0 |}.

Definition assistantMessage (w : Worker) (chunks : list string) : Message :=
  {| role := assistant; content := fullResponse chunks; timestamp := workerNow w 1 |}.

(** [chatRoute.post('/')] *)
Definition chatRoute (w : Worker) (r : ChatRequest.t) (d : UserChatStorage)
  : UserChatStorage * ChatResponse :=
  if negb (valid w r) then (d, InvalidRequest)
  else
    let model := ChatRequest.model r in
    let '(d1, saveResponse) :=
      fetch (onSave w) (appendMessage (ChatRequest.conversationId r) (userMessage w r) model) d in
    let chat := payload saveResponse in
    let '(d2, historyResponse) :=
      fetch (onHistory w) (getConversation (interpolate (payloadId chat))) d1 in
    let fullChat := payload historyResponse in
    let '(chunks, returned) := callAI w model (payloadMessages fullChat) in
    let events := ContentEvent <$> chunks in
    if returned then
      let '(d3, _) :=
        fetch (onReply w) (appendMessage (payloadId chat) (assistantMessage w chunks) model) d2 in
      (d3, Stream (events ++ [DoneEvent]) true)
    else (d2, Stream events false).

(** ** The page: the store of [scripts/store.ts] and the function of
    [scripts/stream.ts] that puts streamed text into it *)

Module Client.

Record Message := {
  role : Role;
  content : string;
}.

Record Conversation := {
  id : string;
  title : string;
  model : string;
  messages : list Message;
}.

(** [$activeChat] and [$conversations], the latter keyed by identifier. *)
Record Store := {
  activeChat : option string;
  conversations : gmap string Conversation;
}.

(** [{ ...chat, messages }] *)
Definition withMessages (chat : Conversation) (l : list Message) : Conversation :=
  {| id := id chat; title := title chat; model := model chat; messages := l |}.

(** [appendToCurrentMessage(content)] *)
Definition appendToCurrentMessage (text : string) (st : Store) : Store :=
  if negb (truthy (activeChat st)) then st
  else
    match activeChat st with
    | None => st
    | Some activeChatId =>
        match conversations st !! activeChatId with
        | None => st
        | Some chat =>
            let lastMessage := last (messages chat) in
            let updatedMessages :=
              match lastMessage with
              | Some lastMessage =>
                  if decide (role lastMessage = assistant)
                  then <[pred (length (messages chat)) :=
                           {| role := role lastMessage;
                              content := content lastMessage +:+ text |}]> (messages chat)
                  else (messages chat ++ [{| role := assistant; content := text |}])%list
              | None => (messages chat ++ [{| role := assistant; content := text |}])%list
              end in
            {| activeChat := activeChat st;
               conversations :=
                 <[activeChatId := withMessages chat updatedMessages]> (conversations st) |}
        end
    end.

(** What [handleStream] does to the store for the pieces of text it
    reads, one call per piece. *)
Definition appendAll (pieces : list string) (st : Store) : Store :=
  foldl (λ st text, appendToCurrentMessage text st) st pieces.

End Client.

(** More sample data: a mixed sequence of requests, a worker whose
    [callAI] delivers given chunks, a chat request, and a page store with
    one conversation that ends with the user's message. *)
Definition uuid6 : string := "7d444840-9dc0-41d1-b245-5ffdce74fad2".
Definition uuid7 : string := "c2a1b3d4-5e6f-4a7b-8c9d-0e1f2a3b4c5d".

(** The pathname of a URL [http://do/...] made of plain characters:
    what follows the origin. *)
Definition afterOrigin (url : string) : string :=
  String.substring 9 (String.length url - 9) url.

Definition lightTheme : Partial.t :=
  {| Partial.defaultModel := None; Partial.theme := Some light |}.

Definition mixedCalls : list (Platform * Request) :=
  [creation (working uuid3 3000, hello, "gpt-4o");
   (working uuid4 3100, deleteConversation uuid1);
   (writeFails uuid5 3200, setPreferences lightTheme);
   creation (working uuid6 3300, again, "gpt-4o-mini");
   creation (writeFails uuid7 3400, hello, "gpt-4o");
   (working uuid4 3500, listConversations)].

Definition sampleWorker (chunks : list string) (returned : bool) : Worker :=
  {| isUuid := λ s, bool_decide (String.length s = 36%nat);
     workerNow := λ k, 5000 + Z.of_nat k;
     onSave := working uuid3 5000;
     onHistory := working uuid4 5001;
     onReply := working uuid5 5002;
     callAI := λ _ _, (chunks, returned) |}.

Definition sampleRequest (conversationId : option string) : ChatRequest.t :=
  {| ChatRequest.conversationId := conversationId;
     ChatRequest.message := "and again";
     ChatRequest.model := "gpt-4o-mini" |}.

Definition samplePage : Client.Store :=
  {| Client.activeChat := Some uuid1;
     Client.conversations :=
       {[ uuid1 := {| Client.id := uuid1; Client.title := "hello...";
                      Client.model := "gpt-4o";
                      Client.messages := [{| Client.role := user;
                                             Client.content := "hello" |}] |} ]} |}.

(** ** Properties *)

Section Basics.
Context (env : Platform).

Lemma getStorage_readable d :
  readable env d = true →
  getStorage env d = ({| storage := Some (current d); data := data d |}, Return (current d)).
Proof.
  unfold readable, getStorage, current. destruct d as [[s|] dd]; simpl.
  - done.
  - by intros ->.
Qed.

Lemma getStorage_unreadable d :
  readable env d = false → getStorage env d = (d, Throw).
Proof.
  unfold readable, getStorage. destruct d as [[s|] dd]; simpl; [done|].
  by intros ->.
Qed.

Lemma fetch_unreadable_post cid m mdl d :
  readable env d = false →
  fetch env (appendMessage cid m mdl) d = (d, internalError).
Proof.
  intros Hr. unfold fetch, tryCatch, handle; simpl.
  unfold mbind, Async_bind, postJson; simpl.
  by rewrite getStorage_unreadable.
Qed.

Lemma fetch_create m mdl d :
  readable env d = true →
  fetch env (appendMessage None m mdl) d =
    let body := {| Body.conversationId := None; Body.message := m; Body.model := mdl |} in
    let chat := newChat env body in
    committed env d
      (withChats (current d) (evictOldest (records d) ++ [chat]))
      (jsonResponse (ChatPayload chat)).
Proof.
  intros Hr. unfold fetch, tryCatch, handle; simpl.
  unfold mbind, Async_bind, postJson; simpl.
  rewrite getStorage_readable by done. simpl.
  unfold saveStorage, committed, withChats, records; simpl.
  by destruct (storagePut env).
Qed.

End Basics.

(** *** The sort *)

Section Sort.
Context {A : Type} (cmp : A → A → Z).

Lemma insertSorted_perm x l : insertSorted cmp x l ≡ₚ x :: l.
Proof.
  induction l as [|y l IH]; simpl; [done|].
  case_bool_decide; [done|].
  rewrite IH. apply Permutation_swap.
Qed.

Lemma sort_perm l : sort cmp l ≡ₚ l.
Proof.
  induction l as [|x l IH]; simpl; [done|].
  by rewrite insertSorted_perm, IH.
Qed.

Lemma length_sort l : length (sort cmp l) = length l.
Proof. by rewrite sort_perm. Qed.

Lemma sort_nonempty x l : ∃ v rest, sort cmp (x :: l) = v :: rest.
Proof.
  pose proof (length_sort (x :: l)) as Hlen.
  destruct (sort cmp (x :: l)) as [|v rest]; [done|]. by exists v, rest.
Qed.

End Sort.

(** The first element after the sort has the smallest [updatedAt]. *)
Lemma insertSorted_leads x l :
  (∀ w rest, l = w :: rest → leads w l) →
  ∀ v rest, insertSorted byUpdatedAt x l = v :: rest → leads v (x :: l).
Proof.
  intros Hl v rest. destruct l as [|y l]; simpl.
  - intros [= <- <-] c Hc. apply list_elem_of_singleton in Hc as ->. lia.
  - pose proof (Hl y l eq_refl) as Hy. unfold byUpdatedAt.
    case_bool_decide as Hxy; intros [= <- <-] c [->|Hc]%elem_of_cons.
    + lia.
    + specialize (Hy c Hc). lia.
    + lia.
    + by apply Hy.
Qed.

Lemma sort_head_min l v rest :
  sort byUpdatedAt l = v :: rest → leads v l.
Proof.
  revert v rest. induction l as [|x l IH]; intros v rest; simpl; [done|].
  intros Hins c Hc.
  eapply (insertSorted_leads x (sort byUpdatedAt l)); [|exact Hins|].
  - intros w rest' Hs c' Hc'. apply (IH w rest' Hs).
    by rewrite <- (sort_perm byUpdatedAt l).
  - by rewrite sort_perm.
Qed.

(** The sort does order the records by [updatedAt]. *)
Lemma insertSorted_Sorted x l :
  Sorted (λ a b, updatedAt a ≤ updatedAt b) l →
  Sorted (λ a b, updatedAt a ≤ updatedAt b) (insertSorted byUpdatedAt x l).
Proof.
  induction 1 as [|y l Hl IH Hhd]; simpl.
  - by repeat constructor.
  - unfold byUpdatedAt. case_bool_decide as Hxy.
    + constructor; [by constructor|]. constructor. lia.
    + constructor; [done|].
      destruct Hhd as [|z l' Hyz]; simpl.
      * constructor. lia.
      * case_bool_decide; constructor; lia.
Qed.

Lemma Sorted_sort l : Sorted (λ a b, updatedAt a ≤ updatedAt b) (sort byUpdatedAt l).
Proof.
  induction l as [|x l IH]; simpl; [constructor|]. by apply insertSorted_Sorted.
Qed.

Lemma length_shift {A} (l : list A) : length (shift l) = pred (length l).
Proof. by destruct l. Qed.

(** *** The bound *)

Lemma length_evictOldest_push l chat :
  (length l ≤ MAX_CHATS)%nat →
  (length (evictOldest l ++ [chat]) ≤ MAX_CHATS)%nat.
Proof.
  intros Hl. rewrite length_app. unfold evictOldest. simpl.
  case_bool_decide as Hfull.
  - rewrite length_shift, length_sort. unfold MAX_CHATS in *. lia.
  - unfold MAX_CHATS in *. lia.
Qed.

Lemma bounded_fresh : bounded fresh.
Proof. split; simpl; lia. Qed.

Lemma bounded_creation env m mdl d :
  bounded d → bounded (fetch env (appendMessage None m mdl) d).1.
Proof.
  intros [Hmem Hdur]. destruct (readable env d) eqn:Hr.
  - rewrite fetch_create by done. simpl. unfold committed.
    pose proof (length_evictOldest_push (records d)
      (newChat env {| Body.conversationId := None; Body.message := m; Body.model := mdl |}) Hmem).
    destruct (storagePut env); split; simpl; done.
  - rewrite fetch_unreadable_post by done. by split.
Qed.

(** C1. Whatever new conversations are started one after the other on an
    unused object, and whatever the platform answers (failed reads and
    writes of the durable storage included), after each call at most
    [MAX_CHATS] = 3 records are stored, in memory and in the durable copy. *)
Theorem creations_keep_bound (calls : list (Platform * Message * string)) :
  Forall (λ d, (length (records d) ≤ MAX_CHATS)%nat ∧ (length (persisted d) ≤ MAX_CHATS)%nat)
         (states fresh (creation <$> calls)).
Proof.
  change (Forall bounded (states fresh (creation <$> calls))).
  generalize bounded_fresh. generalize fresh as d.
  induction calls as [|[[env m] mdl] calls IH]; intros d Hd; simpl.
  - constructor.
  - constructor.
    + by apply bounded_creation.
    + apply IH. by apply bounded_creation.
Qed.

(** *** Eviction order *)

Lemma evictOldest_below l :
  (length l < MAX_CHATS)%nat → evictOldest l = l.
Proof. intros Hl. unfold evictOldest. rewrite bool_decide_eq_false_2; [done|lia]. Qed.

Lemma evictOldest_full l :
  (MAX_CHATS ≤ length l)%nat → evictOldest l = shift (sort byUpdatedAt l).
Proof. intros Hl. unfold evictOldest. by rewrite bool_decide_eq_true_2. Qed.

(** Records already in the order of their [updatedAt] are left in place by
    the sort: ties keep their positions. *)
Lemma sort_ordered l :
  Sorted (λ a b, updatedAt a ≤ updatedAt b) l → sort byUpdatedAt l = l.
Proof.
  induction 1 as [|x l Hl IH Hhd]; simpl; [done|].
  rewrite IH. destruct Hhd as [|y l' Hxy]; simpl; [done|].
  unfold byUpdatedAt. rewrite bool_decide_eq_true_2; [done|lia].
Qed.

Lemma run_cons env request calls d :
  run d ((env, request) :: calls) =
    ((run (fetch env request d).1 calls).1,
     (fetch env request d).2 :: (run (fetch env request d).1 calls).2).
Proof.
  simpl. destruct (fetch env request d) as [d1 r]; simpl.
  by destruct (run d1 calls).
Qed.

Lemma fetch_create_healthy env m mdl d :
  readable env d = true → storagePut env = true →
  fetch env (appendMessage None m mdl) d =
    (let s := withChats (current d) (evictOldest (records d) ++ [created env m mdl]) in
     {| storage := Some s; data := Some s |},
     jsonResponse (ChatPayload (created env m mdl))).
Proof.
  intros Hr Hput. rewrite fetch_create by done. unfold committed. by rewrite Hput.
Qed.

(** C2. Four new conversations started one after the other on an unused
    object, the durable storage working and the clock not running
    backwards between the creations: every call answers with its new
    record, and afterwards the store holds exactly the second, third and
    fourth record, in memory and in the durable copy. The first record,
    whose identifier is not reused, is not among them. *)
Theorem fifo_eviction_of_first
  (p1 p2 p3 p4 : Platform) (m1 m2 m3 m4 : Message) (g1 g2 g3 g4 : string) :
  storageGet p1 = true →
  storagePut p1 = true → storagePut p2 = true →
  storagePut p3 = true → storagePut p4 = true →
  dateNow p1 1 ≤ dateNow p2 1 → dateNow p2 1 ≤ dateNow p3 1 →
  randomUUID p1 ∉ [randomUUID p2; randomUUID p3; randomUUID p4] →
  let c1 := created p1 m1 g1 in
  let c2 := created p2 m2 g2 in
  let c3 := created p3 m3 g3 in
  let c4 := created p4 m4 g4 in
  let kept := withChats initialStorage [c2; c3; c4] in
  run fresh (creation <$> [(p1, m1, g1); (p2, m2, g2); (p3, m3, g3); (p4, m4, g4)])
    = ({| storage := Some kept; data := Some kept |},
       ((λ c, jsonResponse (ChatPayload c)) <$> [c1; c2; c3; c4]))
  ∧ (c1 ∉ [c2; c3; c4])
  ∧ ∀ c, c ∈ [c2; c3; c4] → id c ≠ id c1.
Proof.
  intros Hget Hp1 Hp2 Hp3 Hp4 H12 H23 Hfresh c1 c2 c3 c4 kept.
  assert (∀ c, c ∈ [c2; c3; c4] → id c ≠ id c1) as Hids.
  { intros c Hc Heq. apply Hfresh.
    change (randomUUID p1) with (id c1). rewrite <- Heq.
    repeat (apply elem_of_cons in Hc as [->|Hc]); try by apply elem_of_nil in Hc.
    all: rewrite !elem_of_cons; simpl; tauto. }
  split; [|split; [|done]].
  - cbn [fmap list_fmap]. unfold creation. cbn [fst snd].
    rewrite run_cons, fetch_create_healthy by done.
    rewrite run_cons, fetch_create_healthy by done.
    rewrite run_cons, fetch_create_healthy by done.
    rewrite run_cons, fetch_create_healthy by done.
    cbn [run fst snd records current storage chats withChats preferences initialStorage default data fresh].
    rewrite !evictOldest_below by (simpl; unfold MAX_CHATS; lia).
    cbn [app].
    rewrite evictOldest_full by (simpl; unfold MAX_CHATS; lia).
    rewrite sort_ordered.
    + done.
    + repeat constructor; simpl; done.
  - intros Hin. by apply (Hids c1 Hin).
Qed.

(** *** Paths *)

Lemma split_absent sep s : occurs sep s = false → split sep s = [s].
Proof.
  induction s as [|c s IH]; simpl; [done|].
  intros [Hc Hs]%orb_false_elim. apply bool_decide_eq_false_1 in Hc.
  rewrite decide_False by done. by rewrite IH.
Qed.

Lemma split_chats_path ident :
  occurs "/" ident = false → split "/" ("/chats/" +:+ ident) !! 2%nat = Some ident.
Proof. intros Hs. simpl. by rewrite split_absent. Qed.

(** *** The other operations, when the storage can be read *)

Section Operations.
Context (env : Platform).

Lemma fetch_append cid m mdl d :
  readable env d = true → cid ≠ "" →
  fetch env (appendMessage (Some cid) m mdl) d =
    match findChat (Some cid) (records d) with
    | None => ({| storage := Some (current d); data := data d |}, notFound "Chat not found")
    | Some (i, found) =>
        committed env d
          (withChats (current d) (<[i := pushMessage env found m]> (records d)))
          (jsonResponse (ChatPayload (pushMessage env found m)))
    end.
Proof.
  intros Hr Hcid. unfold fetch, tryCatch, handle; simpl.
  unfold mbind, Async_bind, postJson; simpl.
  rewrite getStorage_readable by done. simpl.
  rewrite bool_decide_eq_true_2 by done.
  unfold records. destruct (findChat (Some cid) (chats (current d))) as [[i found]|]; [|done].
  simpl. unfold saveStorage, committed, withChats; simpl.
  by destruct (storagePut env).
Qed.

Lemma fetch_get ident d :
  readable env d = true → occurs "/" ident = false →
  fetch env (getConversation ident) d =
    ({| storage := Some (current d); data := data d |},
     match findChat (Some ident) (records d) with
     | None => notFound "Chat not found"
     | Some (_, chat) => jsonResponse (ChatPayload chat)
     end).
Proof.
  intros Hr Hs. unfold fetch, tryCatch, handle.
  cbn [method pathname getConversation].
  rewrite split_chats_path by done. simpl.
  unfold mbind, Async_bind; simpl.
  rewrite getStorage_readable by done. simpl.
  unfold records. by destruct (findChat (Some ident) (chats (current d))) as [[i found]|].
Qed.

Lemma fetch_clear d :
  fetch env clearAll d = committed env d initialStorage (jsonResponse SuccessPayload).
Proof.
  unfold fetch, tryCatch, handle; simpl.
  unfold mbind, Async_bind, saveStorage, committed; simpl.
  by destruct (storagePut env).
Qed.

Lemma fetch_getPreferences d :
  readable env d = true →
  fetch env getPreferences d =
    ({| storage := Some (current d); data := data d |},
     jsonResponse (PreferencesPayload (preferences (current d)))).
Proof.
  intros Hr. unfold fetch, tryCatch, handle; simpl.
  unfold mbind, Async_bind; simpl.
  by rewrite getStorage_readable.
Qed.

Lemma fetch_setPreferences p d :
  readable env d = true →
  fetch env (setPreferences p) d =
    let merged := mergePreferences (preferences (current d)) p in
    committed env d
      {| chats := records d; preferences := merged |}
      (jsonResponse (PreferencesPayload merged)).
Proof.
  intros Hr. unfold fetch, tryCatch, handle; simpl.
  unfold mbind, Async_bind; simpl.
  rewrite getStorage_readable by done. simpl.
  unfold saveStorage, committed; simpl.
  by destruct (storagePut env).
Qed.

End Operations.

(** *** Looking a record up *)

Lemma findChat_Some ident l i found :
  findChat (Some ident) l = Some (i, found) ↔
  l !! i = Some found ∧ id found = ident ∧
  ∀ j c, l !! j = Some c → (j < i)%nat → id c ≠ ident.
Proof.
  unfold findChat. rewrite list_find_Some. split.
  - intros (Hi & Hid & Hbefore). split; [done|]. split; [congruence|].
    intros j c Hj Hlt Heq. apply (Hbefore j c Hj Hlt). by rewrite Heq.
  - intros (Hi & Hid & Hbefore). split; [done|]. split; [by rewrite Hid|].
    intros j c Hj Hlt [= Heq]. by apply (Hbefore j c Hj Hlt).
Qed.

Lemma findChat_None ident l :
  findChat (Some ident) l = None ↔ ∀ c, c ∈ l → id c ≠ ident.
Proof.
  unfold findChat. rewrite list_find_None, Forall_forall. split.
  - intros Hl c Hc Heq. apply (Hl c Hc). by rewrite Heq.
  - intros Hl c Hc [= Heq]. by apply (Hl c Hc).
Qed.

Lemma findChat_last ident l c :
  (∀ c', c' ∈ l → id c' ≠ ident) → id c = ident →
  findChat (Some ident) (l ++ [c]) = Some (length l, c).
Proof.
  intros Hl Hc. apply findChat_Some. split; [|split; [done|]].
  - by rewrite lookup_app_r, Nat.sub_diag.
  - intros j c' Hj Hlt. apply Hl.
    rewrite lookup_app_l in Hj by done. by eapply list_elem_of_lookup_2.
Qed.

Lemma elem_of_evictOldest c l : c ∈ evictOldest l → c ∈ l.
Proof.
  unfold evictOldest, shift. case_bool_decide; [|done].
  intros Hc. rewrite <- (sort_perm byUpdatedAt l).
  destruct (sort byUpdatedAt l); [done|]. by apply elem_of_cons; right.
Qed.

(** C8. A new conversation is started from any store whose storage can be
    read and written, the platform drawing an identifier that no stored
    record carries (and that is made of plain characters, so that it
    survives as a path segment): the call answers with the new record,
    and reading the conversation under the identifier of that record
    succeeds and returns it, its messages being exactly the message
    given. *)
Theorem create_then_get
  (env env' : Platform) (m : Message) (modelId : string) (d : UserChatStorage) :
  readable env d = true → storagePut env = true →
  occurs "/" (randomUUID env) = false →
  (∀ c, c ∈ records d → id c ≠ randomUUID env) →
  ∃ d1 chat,
    fetch env (appendMessage None m modelId) d = (d1, jsonResponse (ChatPayload chat)) ∧
    ∃ chat',
      fetch env' (getConversation (id chat)) d1 = (d1, jsonResponse (ChatPayload chat')) ∧
      messages chat' = [m].
Proof.
  intros Hr Hput Hplain Hfresh.
  rewrite fetch_create_healthy by done.
  eexists _, _. split; [reflexivity|].
  exists (created env m modelId). split; [|done].
  rewrite fetch_get by done.
  unfold records. cbn [current storage chats withChats data].
  rewrite findChat_last; [done| |done].
  intros c' Hc'%elem_of_evictOldest. by apply Hfresh.
Qed.

(** C9. A message is appended under the identifier of a stored
    conversation, [found] at position [i] being the first record with that
    identifier. The store afterwards is the store before with position [i]
    replaced by a record that has the identifier, title, model and
    creation time of [found] (whatever model the call names), the
    messages of [found] followed by the new message, and the clock reading
    as [updatedAt]; every other position, the number of records and the
    preferences are as before, and the call answers with the updated
    record when the save succeeds. *)
Theorem append_touches_one_record
  (env : Platform) (cid : string) (m : Message) (modelId : string)
  (d : UserChatStorage) (i : nat) (found : Conversation) :
  readable env d = true → cid ≠ "" →
  records d !! i = Some found → id found = cid →
  (∀ j c, records d !! j = Some c → (j < i)%nat → id c ≠ cid) →
  let after := fetch env (appendMessage (Some cid) m modelId) d in
  ∃ chat,
    records after.1 = <[i := chat]> (records d) ∧
    records after.1 !! i = Some chat ∧
    id chat = id found ∧ title chat = title found ∧
    model chat = model found ∧ createdAt chat = createdAt found ∧
    messages chat = (messages found ++ [m])%list ∧
    updatedAt chat = dateNow env 0 ∧
    (∀ j, j ≠ i → records after.1 !! j = records d !! j) ∧
    length (records after.1) = length (records d) ∧
    preferences (current after.1) = preferences (current d) ∧
    (storagePut env = true →
       after.2 = jsonResponse (ChatPayload chat) ∧ data after.1 = storage after.1).
Proof.
  intros Hr Hcid Hi Hid Hfirst after.
  assert (findChat (Some cid) (records d) = Some (i, found)) as Hfind
    by by apply findChat_Some.
  exists (pushMessage env found m).
  assert (records after.1 = <[i := pushMessage env found m]> (records d)) as Hrec.
  { unfold after. rewrite fetch_append, Hfind by done.
    unfold committed. by destruct (storagePut env). }
  rewrite Hrec. split; [done|]. split.
  { apply list_lookup_insert_eq. by eapply lookup_lt_Some. }
  do 6 (split; [done|]). split.
  { intros j Hj. by apply list_lookup_insert_ne. }
  split; [by rewrite length_insert|]. split.
  - unfold after. rewrite fetch_append, Hfind by done.
    unfold committed. by destruct (storagePut env).
  - intros Hput. unfold after. rewrite fetch_append, Hfind by done.
    unfold committed. by rewrite Hput.
Qed.

(** The test [if (body.conversationId)]: an empty identifier is no
    identifier given, and the request is handled as a creation. *)
Lemma empty_id_is_no_id env m mdl d :
  fetch env (appendMessage (Some "") m mdl) d = fetch env (appendMessage None m mdl) d.
Proof. reflexivity. Qed.

(** C4. A message sent under an identifier that no stored record
    carries, the storage being readable: the call answers 404 'Chat not
    found', and the records, the preferences and the durable copy are what
    they were; in particular no record carries that identifier
    afterwards. The identifier is one the object receives: [chat.ts]
    passes an identifier that went through [z.string().uuid()] or the
    identifier of a stored record, never the empty string, which the test
    [if (body.conversationId)] takes for no identifier given. *)
Theorem append_unknown_id_not_found
  (env : Platform) (cid : string) (m : Message) (modelId : string) (d : UserChatStorage) :
  readable env d = true → cid ≠ "" →
  (∀ c, c ∈ records d → id c ≠ cid) →
  let after := fetch env (appendMessage (Some cid) m modelId) d in
  after.2 = {| status := 404; payload := ErrorPayload "Chat not found" |} ∧
  current after.1 = current d ∧
  data after.1 = data d ∧
  (∀ c, c ∈ records after.1 → id c ≠ cid).
Proof.
  intros Hr Hcid Hnone after. unfold after.
  rewrite fetch_append by done.
  apply findChat_None in Hnone as Hfind. rewrite Hfind. simpl.
  repeat split; try done.
Qed.

(** C5 as amended. A new conversation is started while [n] records are
    stored, [n] at least [MAX_CHATS] and possibly more: one record is
    evicted, the one the sort puts first, whose [updatedAt] is the
    smallest, and the new record goes after the others; so [n] records are
    stored afterwards, and a store above the capacity stays above it. *)
Theorem creation_evicts_exactly_one
  (env : Platform) (m : Message) (modelId : string) (d : UserChatStorage) :
  readable env d = true →
  (MAX_CHATS ≤ length (records d))%nat →
  let after := fetch env (appendMessage None m modelId) d in
  ∃ victim rest,
    sort byUpdatedAt (records d) = victim :: rest ∧
    records d ≡ₚ victim :: rest ∧
    (∀ c, c ∈ records d → updatedAt victim ≤ updatedAt c) ∧
    records after.1 = (rest ++ [created env m modelId])%list ∧
    length (records after.1) = length (records d).
Proof.
  intros Hr Hfull after.
  destruct (records d) as [|c0 l0] eqn:Hrec; [simpl in Hfull; unfold MAX_CHATS in Hfull; lia|].
  destruct (sort_nonempty byUpdatedAt c0 l0) as (victim & rest & Hsort).
  exists victim, rest.
  assert (records after.1 = (rest ++ [created env m modelId])%list) as Hafter.
  { unfold after. rewrite fetch_create by done. cbn zeta.
    rewrite Hrec, evictOldest_full, Hsort by done.
    unfold committed. by destruct (storagePut env). }
  split; [done|]. split; [by rewrite <- Hsort, sort_perm|].
  split; [by eapply sort_head_min|]. split; [done|].
  rewrite Hafter, length_app, <- (length_sort byUpdatedAt (c0 :: l0)), Hsort.
  simpl. lia.
Qed.

(** C10. Clearing resets the whole storage object, preferences included:
    from any store, after [DELETE /clear] no record is left and the
    preferences in memory are the built-in defaults, model 'gpt-4o' and
    theme dark, which is what reading the preferences returns from then
    on; when the save succeeds the durable copy is the same and the call
    answers success. *)
Theorem clear_resets_preferences (env env' : Platform) (d : UserChatStorage) :
  let after := fetch env clearAll d in
  records after.1 = [] ∧
  preferences (current after.1) = {| defaultModel := "gpt-4o"; theme := dark |} ∧
  fetch env' getPreferences after.1 =
    (after.1, jsonResponse (PreferencesPayload {| defaultModel := "gpt-4o"; theme := dark |})) ∧
  (if storagePut env
   then data after.1 = Some initialStorage ∧ after.2 = jsonResponse SuccessPayload
   else data after.1 = data d ∧ after.2 = internalError).
Proof.
  cbn zeta. rewrite fetch_clear. unfold committed.
  destruct (storagePut env); simpl.
  - rewrite fetch_getPreferences by done. done.
  - rewrite fetch_getPreferences by done. done.
Qed.

Example clear_forgets_theme :
  (run fresh [(working uuid1 1000,
               setPreferences {| Partial.defaultModel := None; Partial.theme := Some light |});
              (working uuid1 2000, getPreferences);
              (working uuid1 3000, clearAll);
              (working uuid1 4000, getPreferences)]).2
  = [jsonResponse (PreferencesPayload {| defaultModel := "gpt-4o"; theme := light |});
     jsonResponse (PreferencesPayload {| defaultModel := "gpt-4o"; theme := light |});
     jsonResponse SuccessPayload;
     jsonResponse (PreferencesPayload {| defaultModel := "gpt-4o"; theme := dark |})].
Proof. reflexivity. Qed.

(** C3. Three conversations are started on an unused object, a message
    is then appended to the first one at a time later than the second
    one's last update, and a fourth conversation is started, the durable
    storage working throughout and the third conversation not older than
    the second: all five calls answer with their record, and the records
    kept are the first conversation (with its two messages), the third
    and the fourth. The second conversation, whose identifier is not
    reused, is the one evicted. *)
Theorem append_protects_from_eviction
  (p1 p2 p3 pa p4 : Platform) (m1 m2 m3 ma m4 : Message) (g1 g2 g3 ga g4 : string) :
  storageGet p1 = true →
  storagePut p1 = true → storagePut p2 = true → storagePut p3 = true →
  storagePut pa = true → storagePut p4 = true →
  randomUUID p1 ≠ "" →
  dateNow p2 1 ≤ dateNow p3 1 →
  dateNow p2 1 < dateNow pa 0 →
  randomUUID p2 ∉ [randomUUID p1; randomUUID p3; randomUUID p4] →
  let c1 := created p1 m1 g1 in
  let c2 := created p2 m2 g2 in
  let c3 := created p3 m3 g3 in
  let c4 := created p4 m4 g4 in
  let c1' := pushMessage pa c1 ma in
  ∃ kept,
    run fresh [creation (p1, m1, g1); creation (p2, m2, g2); creation (p3, m3, g3);
               (pa, appendMessage (Some (id c1)) ma ga); creation (p4, m4, g4)]
      = ({| storage := Some (withChats initialStorage kept);
            data := Some (withChats initialStorage kept) |},
         ((λ c, jsonResponse (ChatPayload c)) <$> [c1; c2; c3; c1'; c4]))
    ∧ kept ≡ₚ [c1'; c3; c4]
    ∧ messages c1' = [m1; ma]
    ∧ (c2 ∉ kept)
    ∧ ∀ c, c ∈ kept → id c ≠ id c2.
Proof.
  intros Hget Hp1 Hp2 Hp3 Hpa Hp4 Hu1 H23 H2a Hfresh c1 c2 c3 c4 c1'.
  set (kept := ((if bool_decide (dateNow pa 0 ≤ dateNow p3 1)
                 then [c1'; c3] else [c3; c1']) ++ [c4])%list).
  assert (kept ≡ₚ [c1'; c3; c4]) as Hperm.
  { unfold kept. case_bool_decide; simpl; [done|]. apply Permutation_swap. }
  assert (∀ c, c ∈ kept → id c ≠ id c2) as Hids.
  { intros c Hc Heq. apply Hfresh.
    change (randomUUID p2) with (id c2). rewrite <- Heq.
    rewrite Hperm in Hc.
    repeat (apply elem_of_cons in Hc as [->|Hc]); try by apply elem_of_nil in Hc.
    all: rewrite !elem_of_cons; simpl; tauto. }
  exists kept. split; [|split; [done|split; [done|split; [|done]]]].
  - subst kept c1' c1 c2 c3 c4. unfold creation. cbn [fst snd].
    rewrite run_cons, fetch_create_healthy by done.
    rewrite run_cons, fetch_create_healthy by done.
    rewrite run_cons, fetch_create_healthy by done.
    unfold withChats, records, current, fresh.
    cbn [fst snd storage chats preferences initialStorage default data].
    rewrite !evictOldest_below by (simpl; unfold MAX_CHATS; lia).
    cbn [app].
    rewrite run_cons, fetch_append by done.
    unfold withChats, records, current. cbn [fst snd storage chats preferences data].
    rewrite (proj2 (findChat_Some _ _ 0%nat (created p1 m1 g1))).
    2: { split; [done|]. split; [done|]. intros j c _ Hj. lia. }
    unfold committed. rewrite Hpa. cbn [fst snd].
    rewrite run_cons, fetch_create_healthy by done.
    unfold withChats, records, current.
    cbn [run fst snd storage chats preferences data].
    rewrite evictOldest_full by (simpl; unfold MAX_CHATS; lia).
    simpl. unfold byUpdatedAt. simpl.
    rewrite (bool_decide_eq_true_2 (dateNow p2 1 - dateNow p3 1 ≤ 0)) by lia.
    simpl.
    rewrite (bool_decide_eq_false_2 (dateNow pa 0 - dateNow p2 1 ≤ 0)) by lia.
    simpl.
    destruct (decide (dateNow pa 0 ≤ dateNow p3 1)) as [Hle|Hgt].
    + rewrite (bool_decide_eq_true_2 (dateNow pa 0 - dateNow p3 1 ≤ 0)) by lia.
      rewrite (bool_decide_eq_true_2 (dateNow pa 0 ≤ dateNow p3 1)) by lia. done.
    + rewrite (bool_decide_eq_false_2 (dateNow pa 0 - dateNow p3 1 ≤ 0)) by lia.
      rewrite (bool_decide_eq_false_2 (dateNow pa 0 ≤ dateNow p3 1)) by lia. done.
  - intros Hin. by apply (Hids c2 Hin).
Qed.

(** *** A save that fails *)

Lemma getStorage_putWorks env d : getStorage (putWorks env) d = getStorage env d.
Proof. done. Qed.

Lemma getStorage_data env d d1 o : getStorage env d = (d1, o) → data d1 = data d.
Proof.
  unfold getStorage. destruct (storage d); [by intros [= <- _]|].
  destruct (storageGet env); by intros [= <- _].
Qed.

(** C6 as amended. A mutating operation whose save fails: the durable
    copy is what it was, but the object in memory is not rolled back, it
    is the object the operation leaves when the save succeeds; and where
    the operation would have answered 200, it answers 500 'Internal
    error'. *)
Theorem failed_save_keeps_mutation (env : Platform) (op : Mutation) (d : UserChatStorage) :
  storagePut env = false →
  let failed := fetch env (requestOf op) d in
  let saved := fetch (putWorks env) (requestOf op) d in
  data failed.1 = data d ∧
  storage failed.1 = storage saved.1 ∧
  (status saved.2 = 200 → failed.2 = internalError).
Proof.
  intros Hput. cbn zeta. unfold fetch.
  destruct op as [cid m g|ident| |p]; unfold requestOf.
  - (* appendMessage *)
    unfold handle, appendMessage; simpl.
    unfold tryCatch, mbind, Async_bind, postJson; simpl.
    rewrite getStorage_putWorks.
    destruct (getStorage env d) as [d1 [s|]] eqn:Hget;
      pose proof (getStorage_data _ _ _ _ Hget) as Hdata; [|done].
    destruct (truthy cid).
    + destruct (findChat cid (chats s)) as [[i found]|]; [|done].
      unfold saveStorage, setChats; simpl. by rewrite Hput.
    + unfold saveStorage, setChats; simpl. by rewrite Hput.
  - (* deleteConversation *)
    unfold handle, deleteConversation. cbn [method pathname]. simpl.
    unfold tryCatch, mbind, Async_bind; simpl.
    rewrite getStorage_putWorks.
    destruct (getStorage env d) as [d1 [s|]] eqn:Hget;
      pose proof (getStorage_data _ _ _ _ Hget) as Hdata; [|done].
    destruct (findChat _ (chats s)) as [[i found]|]; [|done].
    unfold saveStorage, setChats; simpl. by rewrite Hput.
  - (* clearAll *)
    fold (fetch env clearAll d). fold (fetch (putWorks env) clearAll d).
    rewrite !fetch_clear. unfold committed. simpl. by rewrite Hput.
  - (* setPreferences *)
    unfold handle, setPreferences; simpl.
    unfold tryCatch, mbind, Async_bind, prefsJson; simpl.
    rewrite getStorage_putWorks.
    destruct (getStorage env d) as [d1 [s|]] eqn:Hget;
      pose proof (getStorage_data _ _ _ _ Hget) as Hdata; [|done].
    unfold saveStorage, setPreferencesField; simpl. by rewrite Hput.
Qed.

(** *** The theorems at sample inputs *)

Lemma fifo_eviction_of_first_witness :
  (run fresh (creation <$> [(working uuid1 1000, hello, "gpt-4o");
                            (working uuid2 2000, hello, "gpt-4o");
                            (working uuid3 3000, hello, "gpt-4o");
                            (working uuid4 4000, hello, "gpt-4o")])).1
  = {| storage := Some (withChats initialStorage
                          [created (working uuid2 2000) hello "gpt-4o";
                           created (working uuid3 3000) hello "gpt-4o";
                           created (working uuid4 4000) hello "gpt-4o"]);
       data := Some (withChats initialStorage
                       [created (working uuid2 2000) hello "gpt-4o";
                        created (working uuid3 3000) hello "gpt-4o";
                        created (working uuid4 4000) hello "gpt-4o"]) |}.
Proof.
  refine (f_equal fst (proj1
    (fifo_eviction_of_first (working uuid1 1000) (working uuid2 2000)
       (working uuid3 3000) (working uuid4 4000) hello hello hello hello
       "gpt-4o" "gpt-4o" "gpt-4o" "gpt-4o"
       eq_refl eq_refl eq_refl eq_refl eq_refl _ _ _))).
  - simpl. lia.
  - simpl. lia.
  - apply (bool_decide_unpack _). vm_compute. exact I.
Defined.

Lemma append_protects_from_eviction_witness :
  ∃ kept,
    (run fresh [creation (working uuid1 1000, hello, "gpt-4o");
                creation (working uuid2 2000, hello, "gpt-4o");
                creation (working uuid3 3000, hello, "gpt-4o");
                (working uuid5 3500, appendMessage (Some uuid1) again "gpt-4o");
                creation (working uuid4 4000, hello, "gpt-4o")]).1
      = {| storage := Some (withChats initialStorage kept);
           data := Some (withChats initialStorage kept) |}
    ∧ kept ≡ₚ [pushMessage (working uuid5 3500) (created (working uuid1 1000) hello "gpt-4o") again;
               created (working uuid3 3000) hello "gpt-4o";
               created (working uuid4 4000) hello "gpt-4o"].
Proof.
  destruct (append_protects_from_eviction
    (working uuid1 1000) (working uuid2 2000) (working uuid3 3000)
    (working uuid5 3500) (working uuid4 4000) hello hello hello again hello
    "gpt-4o" "gpt-4o" "gpt-4o" "gpt-4o" "gpt-4o"
    eq_refl eq_refl eq_refl eq_refl eq_refl eq_refl)
    as (kept & Hrun & Hperm & _).
  - discriminate.
  - simpl. lia.
  - simpl. lia.
  - apply (bool_decide_unpack _). vm_compute. exact I.
  - exists kept. split; [exact (f_equal fst Hrun)|exact Hperm].
Defined.

Lemma create_then_get_witness :
  ∃ d1 chat,
    fetch (working uuid3 3000) (appendMessage None hello "gpt-4o") twoChats
      = (d1, jsonResponse (ChatPayload chat)) ∧
    ∃ chat',
      fetch (working uuid5 3500) (getConversation (id chat)) d1
        = (d1, jsonResponse (ChatPayload chat')) ∧
      messages chat' = [hello].
Proof.
  apply (create_then_get (working uuid3 3000) (working uuid5 3500) hello "gpt-4o" twoChats).
  - reflexivity.
  - reflexivity.
  - vm_compute. reflexivity.
  - apply Forall_forall. apply (bool_decide_unpack _). vm_compute. exact I.
Defined.

Lemma append_touches_one_record_witness :
  ∃ chat,
    records (fetch (working uuid5 3500) (appendMessage (Some uuid2) again "gpt-4o") twoChats).1
      = <[1%nat := chat]> (records twoChats) ∧
    model chat = "claude-3-5-sonnet" ∧
    messages chat = [hello; again] ∧
    updatedAt chat = 3500.
Proof.
  destruct (append_touches_one_record (working uuid5 3500) uuid2 again "gpt-4o"
              twoChats 1%nat (created (working uuid2 2000) hello "claude-3-5-sonnet"))
    as (chat & Hrec & _ & _ & _ & Hmodel & _ & Hmsg & Hup & _).
  - reflexivity.
  - discriminate.
  - reflexivity.
  - reflexivity.
  - intros j c Hj Hlt. destruct j as [|j]; [|lia].
    injection Hj as <-. discriminate.
  - exists chat. split; [exact Hrec|]. split; [exact Hmodel|]. split; [exact Hmsg|exact Hup].
Defined.

Lemma append_unknown_id_not_found_witness :
  let after := fetch (working uuid5 3500) (appendMessage (Some uuid4) again "gpt-4o") twoChats in
  after.2 = {| status := 404; payload := ErrorPayload "Chat not found" |} ∧
  current after.1 = current twoChats ∧
  data after.1 = data twoChats ∧
  (∀ c, c ∈ records after.1 → id c ≠ uuid4).
Proof.
  apply (append_unknown_id_not_found (working uuid5 3500) uuid4 again "gpt-4o" twoChats).
  - reflexivity.
  - discriminate.
  - apply Forall_forall. apply (bool_decide_unpack _). vm_compute. exact I.
Defined.

Lemma creation_evicts_exactly_one_witness :
  let after := fetch (working uuid5 5000) (appendMessage None hello "gpt-4o") fourChats in
  ∃ victim rest,
    sort byUpdatedAt (records fourChats) = victim :: rest ∧
    records fourChats ≡ₚ victim :: rest ∧
    (∀ c, c ∈ records fourChats → updatedAt victim ≤ updatedAt c) ∧
    records after.1 = (rest ++ [created (working uuid5 5000) hello "gpt-4o"])%list ∧
    length (records after.1) = length (records fourChats).
Proof.
  apply (creation_evicts_exactly_one (working uuid5 5000) hello "gpt-4o" fourChats).
  - reflexivity.
  - vm_compute. lia.
Defined.

Lemma failed_save_keeps_mutation_witness :
  let failed := fetch (writeFails uuid3 3000) (requestOf (DeleteConversation uuid1)) twoChats in
  let saved := fetch (putWorks (writeFails uuid3 3000)) (requestOf (DeleteConversation uuid1)) twoChats in
  data failed.1 = data twoChats ∧
  storage failed.1 = storage saved.1 ∧
  (status saved.2 = 200 → failed.2 = internalError).
Proof.
  apply (failed_save_keeps_mutation (writeFails uuid3 3000) (DeleteConversation uuid1) twoChats).
  reflexivity.
Defined.

(** *** Where the code departs from the specification *)

(** Against C5: a store that holds four records still holds four after a
    new conversation is started; the creation evicts one record, not down
    to the capacity. *)
Lemma over_capacity_not_healed :
  let after := fetch (working uuid5 5000) (appendMessage None hello "gpt-4o") fourChats in
  length (records fourChats) = 4%nat ∧
  after.2 = jsonResponse (ChatPayload (created (working uuid5 5000) hello "gpt-4o")) ∧
  length (records after.1) = 4%nat ∧
  length (persisted after.1) = 4%nat ∧
  ¬ (length (records after.1) ≤ MAX_CHATS)%nat.
Proof.
  cbn zeta. split; [reflexivity|]. split; [reflexivity|].
  split; [reflexivity|]. split; [reflexivity|].
  vm_compute. lia.
Qed.

(** Against C6: the write of a new conversation fails, the call answers
    500, and yet the conversation is in the store in memory: the next
    listing returns it, while the durable copy has nothing. *)
Lemma failed_save_not_rolled_back :
  let env := writeFails uuid1 1000 in
  let after := fetch env (appendMessage None hello "gpt-4o") fresh in
  storagePut env = false ∧
  after.2 = internalError ∧
  records fresh = [] ∧
  records after.1 = [created env hello "gpt-4o"] ∧
  current after.1 ≠ current fresh ∧
  persisted after.1 = [] ∧
  (fetch env listConversations after.1).2
    = jsonResponse (ConversationsPayload [created env hello "gpt-4o"]).
Proof.
  cbn zeta. split; [reflexivity|]. split; [reflexivity|]. split; [reflexivity|].
  split; [reflexivity|]. split; [discriminate|]. split; reflexivity.
Qed.

(** ** Further properties of the handler *)

(** *** Every request, whatever its method, path and body *)

Lemma getStorage_cases env d :
  getStorage env d = (d, Throw) ∨
  getStorage env d = ({| storage := Some (current d); data := data d |}, Return (current d)).
Proof.
  destruct (readable env d) eqn:Hr.
  - right. by apply getStorage_readable.
  - left. by apply getStorage_unreadable.
Qed.

Lemma findChat_lookup ident l i found :
  findChat ident l = Some (i, found) → l !! i = Some found.
Proof. unfold findChat. by intros (? & _)%list_find_Some. Qed.

(** One request either leaves the object as it is, or leaves in memory a
    storage that is a [Change] of the one it found, the durable copy being
    the old one or that same storage. *)
Lemma fetch_change env request d :
  (fetch env request d).1 = d ∨
  ∃ s, Change env (current d) s ∧
       storage (fetch env request d).1 = Some s ∧
       (data (fetch env request d).1 = data d ∨ data (fetch env request d).1 = Some s).
Proof.
  destruct request as [meth path js].
  unfold fetch, tryCatch, handle. cbn [method pathname json].
  repeat match goal with
  | |- context [if ?b && ?c then _ else _] => destruct b; cbn [andb]
  | |- context [if startsWith ?a ?b then _ else _] => destruct (startsWith a b)
  | |- context [if bool_decide ?P then _ else _] => destruct (bool_decide P)
  end;
  unfold mbind, Async_bind, mret, Async_ret, postJson, prefsJson,
    saveStorage, setChats, setPreferencesField, assignStorage; cbn [json].
  all: repeat (first
    [ match goal with
      | |- context [match ?j with NoJson => _ | _ => _ end] => is_var j; destruct j
      | |- context [getStorage ?e ?x] =>
          destruct (getStorage_cases e x) as [-> | ->]
      | |- context [match findChat ?a ?b with _ => _ end] =>
          let H := fresh "Hfind" in
          destruct (findChat a b) as [[? ?]|] eqn:H;
          [apply findChat_lookup in H|]
      | |- context [if truthy ?a then _ else _] => destruct (truthy a)
      | |- context [storagePut ?e] => destruct (storagePut e)
      end ]; simpl).
  all: try (by left).
  all: try (right; exists (current d); split; [constructor|]; by split; [|left]).
  all: right; eexists; split; [|split; [reflexivity|first [by left | by right]]].
  all: first [ by eapply Appended | by apply Created
             | apply Removed; by eapply lookup_lt_Some
             | apply Cleared | apply Merged ].
Qed.

Lemma Change_length env s s' :
  Change env s s' →
  (length (chats s) ≤ MAX_CHATS)%nat → (length (chats s') ≤ MAX_CHATS)%nat.
Proof.
  intros [|i found m Hi|body|i Hi| |p] Hs; simpl; try done.
  - by rewrite length_insert.
  - by apply length_evictOldest_push.
  - rewrite length_delete by (by apply lookup_lt_is_Some_2). lia.
  - lia.
Qed.

Lemma bounded_fetch env request d : bounded d → bounded (fetch env request d).1.
Proof.
  intros [Hmem Hdur].
  destruct (fetch_change env request d) as [-> | (s & Hchange & Hs & Hdata)]; [done|].
  pose proof (Change_length _ _ _ Hchange Hmem) as Hlen.
  unfold bounded, records, persisted, current. rewrite Hs.
  split; [done|]. destruct Hdata as [-> | ->]; done.
Qed.

(** X1. From a store within the capacity, no sequence of requests of any
    kind, under any platform answers, leads to a store with more than
    [MAX_CHATS] records, in memory or in the durable copy. *)
Theorem requests_keep_bound (d : UserChatStorage) (calls : list (Platform * Request)) :
  bounded d → Forall bounded (states d calls).
Proof.
  revert d. induction calls as [|[env request] calls IH]; intros d Hd; simpl.
  - constructor.
  - constructor; [by apply bounded_fetch|]. apply IH. by apply bounded_fetch.
Qed.

Lemma NoDup_ids_evictOldest l :
  NoDup (id <$> l) → NoDup (id <$> evictOldest l).
Proof.
  unfold evictOldest, shift. case_bool_decide; [|done].
  intros Hl. rewrite <- (sort_perm byUpdatedAt l) in Hl.
  destruct (sort byUpdatedAt l) as [|c rest]; [done|].
  simpl in *. by apply NoDup_cons in Hl as [_ ?].
Qed.

Lemma Change_ids env s s' :
  Change env s s' →
  randomUUID env ∉ id <$> chats s →
  NoDup (id <$> chats s) → NoDup (id <$> chats s').
Proof.
  intros [|i found m Hi|body|i Hi| |p] Hfresh Hs; simpl; try done.
  - rewrite list_fmap_insert. simpl.
    rewrite list_insert_id; [done|]. by rewrite list_lookup_fmap, Hi.
  - rewrite fmap_app. simpl. apply NoDup_app. split; [by apply NoDup_ids_evictOldest|].
    split; [|apply NoDup_singleton].
    intros x Hx ->%list_elem_of_singleton. apply Hfresh.
    apply list_elem_of_fmap in Hx as (c & -> & Hc).
    apply list_elem_of_fmap. exists c. split; [done|]. by apply elem_of_evictOldest.
  - eapply sublist_NoDup; [done|]. apply (fmap_sublist id), sublist_delete.
  - constructor.
Qed.

Lemma unique_fetch env request d :
  unique d → randomUUID env ∉ ids d → unique (fetch env request d).1.
Proof.
  intros [Hmem Hdur] Hfresh.
  destruct (fetch_change env request d) as [-> | (s & Hchange & Hs & Hdata)]; [done|].
  pose proof (Change_ids _ _ _ Hchange Hfresh Hmem) as Hids.
  unfold unique, ids, records, persisted, current. rewrite Hs.
  split; [done|]. destruct Hdata as [-> | ->]; done.
Qed.

(** X2. No two stored records share an identifier: from a store where
    that holds, it holds after every request of every sequence, in
    memory and in the durable copy, as long as the identifier the
    platform draws is each time one that no stored record carries. *)
Theorem requests_keep_ids_unique (d : UserChatStorage) (calls : list (Platform * Request)) :
  unique d → drawsFresh d calls → Forall unique (states d calls).
Proof.
  revert d. induction calls as [|[env request] calls IH]; intros d Hd Hfresh; simpl.
  - constructor.
  - destruct Hfresh as [Hnew Hrest].
    constructor; [by apply unique_fetch|]. apply IH; [by apply unique_fetch|done].
Qed.

(** X3. A request whose method is none of POST, DELETE and PUT changes
    neither the records, nor the preferences, nor the durable copy,
    whatever its path and body and whatever the platform answers. *)
Theorem reads_change_nothing (env : Platform) (request : Request) (d : UserChatStorage) :
  method request ≠ "POST" → method request ≠ "DELETE" → method request ≠ "PUT" →
  current (fetch env request d).1 = current d ∧
  data (fetch env request d).1 = data d.
Proof.
  destruct request as [meth path js]. cbn [method]. intros Hpost Hdelete Hput.
  unfold fetch, tryCatch, handle. cbn [method pathname json].
  rewrite (bool_decide_eq_false_2 (meth = "POST")) by done.
  rewrite (bool_decide_eq_false_2 (meth = "DELETE")) by done.
  rewrite (bool_decide_eq_false_2 (meth = "PUT")) by done.
  cbn [andb].
  repeat match goal with
  | |- context [if ?b && ?c then _ else _] => destruct b; cbn [andb]
  | |- context [if startsWith ?a ?b then _ else _] => destruct (startsWith a b)
  | |- context [if bool_decide ?P then _ else _] => destruct (bool_decide P)
  end;
  unfold mbind, Async_bind, mret, Async_ret.
  all: repeat (first
    [ match goal with
      | |- context [getStorage ?e ?x] =>
          destruct (getStorage_cases e x) as [-> | ->]
      | |- context [match findChat ?a ?b with _ => _ end] =>
          destruct (findChat a b) as [[? ?]|]
      end ]; simpl).
  all: done.
Qed.

(** *** Deleting, clearing, preferences *)

Lemma fetch_delete env ident d :
  readable env d = true → occurs "/" ident = false →
  fetch env (deleteConversation ident) d =
    match findChat (Some ident) (records d) with
    | None => ({| storage := Some (current d); data := data d |}, notFound "Chat not found")
    | Some (index, _) =>
        committed env d (withChats (current d) (delete index (records d)))
          (jsonResponse SuccessPayload)
    end.
Proof.
  intros Hr Hs. unfold fetch, tryCatch, handle.
  cbn [method pathname deleteConversation].
  rewrite split_chats_path by done. simpl.
  unfold mbind, Async_bind; simpl.
  rewrite getStorage_readable by done. simpl.
  unfold records. destruct (findChat (Some ident) (chats (current d))) as [[i found]|]; [|done].
  simpl. unfold saveStorage, committed, withChats; simpl.
  by destruct (storagePut env).
Qed.

(** X4. Deleting under the identifier of a stored conversation, [found]
    at position [i] being the first record with it: exactly that position
    is removed, the other records stay in their order and the preferences
    stay; when the save succeeds the call answers success and the durable
    copy is the storage in memory. Where identifiers are unique, reading
    the conversation afterwards answers 404 'Chat not found'. *)
Theorem delete_removes_one_record
  (env env' : Platform) (ident : string) (d : UserChatStorage)
  (i : nat) (found : Conversation) :
  readable env d = true → occurs "/" ident = false →
  records d !! i = Some found → id found = ident →
  (∀ j c, records d !! j = Some c → (j < i)%nat → id c ≠ ident) →
  let after := fetch env (deleteConversation ident) d in
  records after.1 = delete i (records d) ∧
  records after.1 = (take i (records d) ++ drop (S i) (records d))%list ∧
  S (length (records after.1)) = length (records d) ∧
  preferences (current after.1) = preferences (current d) ∧
  (storagePut env = true →
     after.2 = jsonResponse SuccessPayload ∧ data after.1 = storage after.1) ∧
  (NoDup (ids d) →
     (fetch env' (getConversation ident) after.1).2 = notFound "Chat not found").
Proof.
  intros Hr Hplain Hi Hid Hfirst after.
  assert (findChat (Some ident) (records d) = Some (i, found)) as Hfind
    by by apply findChat_Some.
  assert (records after.1 = delete i (records d)) as Hrec.
  { unfold after. rewrite fetch_delete, Hfind by done.
    unfold committed. by destruct (storagePut env). }
  split; [done|]. split; [by rewrite Hrec, delete_take_drop|].
  split.
  { rewrite Hrec, length_delete by (by eexists). apply lookup_lt_Some in Hi. lia. }
  split.
  { unfold after. rewrite fetch_delete, Hfind by done.
    unfold committed. by destruct (storagePut env). }
  split.
  { intros Hput. unfold after. rewrite fetch_delete, Hfind by done.
    unfold committed. by rewrite Hput. }
  intros Hnodup.
  assert (readable env' after.1 = true) as Hr'.
  { unfold after. rewrite fetch_delete, Hfind by done.
    unfold committed. by destruct (storagePut env). }
  rewrite fetch_get by done. rewrite Hrec.
  rewrite (proj2 (findChat_None ident (delete i (records d)))); [done|].
  intros c Hc Hidc.
  apply list_elem_of_lookup in Hc as [j Hj].
  unfold ids in Hnodup.
  destruct (decide (j < i)%nat) as [Hlt|Hge].
  - rewrite list_lookup_delete_lt in Hj by done. by apply (Hfirst j c Hj Hlt).
  - rewrite list_lookup_delete_ge in Hj by lia.
    assert (S j = i); [|lia].
    eapply (NoDup_lookup (id <$> records d)); [done| |].
    + by rewrite list_lookup_fmap, Hj; simpl; rewrite Hidc.
    + by rewrite list_lookup_fmap, Hi; simpl; rewrite Hid.
Qed.

(** X5. Deleting under an identifier that no stored record carries
    answers 404 'Chat not found' and leaves the records, the preferences
    and the durable copy as they were. *)
Theorem delete_unknown_id_not_found
  (env : Platform) (ident : string) (d : UserChatStorage) :
  readable env d = true → occurs "/" ident = false →
  (∀ c, c ∈ records d → id c ≠ ident) →
  let after := fetch env (deleteConversation ident) d in
  after.2 = notFound "Chat not found" ∧
  current after.1 = current d ∧
  data after.1 = data d.
Proof.
  intros Hr Hplain Hnone after. unfold after.
  rewrite fetch_delete by done.
  apply findChat_None in Hnone as ->. done.
Qed.

(** X6. Clearing is idempotent and needs no read of the durable storage:
    after one clearing the store is the initial one, a listing returns no
    conversation, and a second clearing leaves the same store; with
    working writes both clearings answer success and the second changes
    nothing at all. *)
Theorem clear_is_idempotent (env1 env2 env' : Platform) (d : UserChatStorage) :
  let once := fetch env1 clearAll d in
  let twice := fetch env2 clearAll once.1 in
  current once.1 = initialStorage ∧
  current twice.1 = initialStorage ∧
  (fetch env' listConversations once.1).2 = jsonResponse (ConversationsPayload []) ∧
  (storagePut env1 = true → storagePut env2 = true →
     once.2 = jsonResponse SuccessPayload ∧ twice = once).
Proof.
  cbn zeta. rewrite !fetch_clear. unfold committed.
  destruct (storagePut env1), (storagePut env2); simpl; repeat split; try done.
Qed.

(** X7. Setting preferences merges field by field: a field the request
    names takes the new value, a field it leaves out keeps the old one,
    and reading the preferences afterwards returns that merge; the
    records are not touched, and setting the same fields again changes
    nothing more. *)
Theorem preferences_merge_and_read_back
  (env env' : Platform) (p : Partial.t) (d : UserChatStorage) :
  readable env d = true →
  let after := fetch env (setPreferences p) d in
  let merged := preferences (current after.1) in
  defaultModel merged = default (defaultModel (preferences (current d))) (Partial.defaultModel p) ∧
  theme merged = default (theme (preferences (current d))) (Partial.theme p) ∧
  records after.1 = records d ∧
  fetch env' getPreferences after.1 = (after.1, jsonResponse (PreferencesPayload merged)) ∧
  mergePreferences merged p = merged ∧
  (storagePut env = true →
     after.2 = jsonResponse (PreferencesPayload merged) ∧ data after.1 = storage after.1).
Proof.
  intros Hr. cbn zeta. rewrite fetch_setPreferences by done. cbn zeta.
  unfold committed.
  destruct (storagePut env); simpl; rewrite fetch_getPreferences by done;
    (repeat split; try done);
    unfold mergePreferences; destruct p as [[m|] [t|]]; done.
Qed.

(** X8. Whatever a request that is not a GET answers with status 200 has
    been written: the durable copy is then the whole storage in memory
    (earlier changes whose save had failed included), so an object
    started afresh on it finds the same records and preferences. *)
Theorem success_means_saved (env : Platform) (request : Request) (d : UserChatStorage) :
  method request ≠ "GET" →
  status (fetch env request d).2 = 200 →
  data (fetch env request d).1 = Some (current (fetch env request d).1) ∧
  current (restart (fetch env request d).1) = current (fetch env request d).1.
Proof.
  destruct request as [meth path js]. cbn [method]. intros Hget.
  unfold fetch, tryCatch, handle. cbn [method pathname json].
  rewrite (bool_decide_eq_false_2 (meth = "GET")) by done.
  cbn [andb].
  repeat match goal with
  | |- context [if ?b && ?c then _ else _] => destruct b; cbn [andb]
  | |- context [if startsWith ?a ?b then _ else _] => destruct (startsWith a b)
  | |- context [if bool_decide ?P then _ else _] => destruct (bool_decide P)
  end;
  unfold mbind, Async_bind, mret, Async_ret, postJson, prefsJson,
    saveStorage, setChats, setPreferencesField, assignStorage; cbn [json].
  all: repeat (first
    [ match goal with
      | |- context [match ?j with NoJson => _ | _ => _ end] => is_var j; destruct j
      | |- context [getStorage ?e ?x] =>
          destruct (getStorage_cases e x) as [-> | ->]
      | |- context [match findChat ?a ?b with _ => _ end] =>
          destruct (findChat a b) as [[? ?]|]
      | |- context [if truthy ?a then _ else _] => destruct (truthy a)
      | |- context [storagePut ?e] => destruct (storagePut e)
      end ]; simpl).
  all: done.
Qed.

(** *** Routes that do not exist, storage that cannot be read *)

(** X9. A request for a path that is none of [/chats], [/chats/...],
    [/clear] and [/preferences] answers 404 'Not found' whatever its
    method, and does not touch the object, not even to read the
    storage. *)
Theorem unknown_path_not_found (env : Platform) (request : Request) (d : UserChatStorage) :
  pathname request ≠ "/chats" → startsWith (pathname request) "/chats/" = false →
  pathname request ≠ "/clear" → pathname request ≠ "/preferences" →
  fetch env request d = (d, notFound "Not found").
Proof.
  destruct request as [meth path js]. cbn [pathname]. intros Hchats Hchat Hclear Hprefs.
  unfold fetch, tryCatch, handle. cbn [method pathname json].
  rewrite Hchat.
  rewrite (bool_decide_eq_false_2 (path = "/chats")) by done.
  rewrite (bool_decide_eq_false_2 (path = "/clear")) by done.
  rewrite (bool_decide_eq_false_2 (path = "/preferences")) by done.
  rewrite !andb_false_r. done.
Qed.

(** X10. While nothing is cached and the durable storage cannot be read,
    every request except [DELETE /clear] leaves the object as it is and
    answers 500 'Internal error' (or 404 'Not found' for a route that
    does not exist); clearing alone still goes through, since it never
    reads. *)
Theorem unreadable_storage_fails_closed
  (env : Platform) (request : Request) (d : UserChatStorage) :
  readable env d = false →
  ¬ (method request = "DELETE" ∧ pathname request = "/clear") →
  (fetch env request d).1 = d ∧
  ((fetch env request d).2 = internalError ∨ (fetch env request d).2 = notFound "Not found").
Proof.
  destruct request as [meth path js]. cbn [method pathname]. intros Hr Hclear.
  unfold fetch, tryCatch, handle. cbn [method pathname json].
  repeat match goal with
  | |- context [if bool_decide ?P && ?c then _ else _] =>
      let H := fresh "H" in destruct (bool_decide_reflect P) as [H|H]; cbn [andb]
  | |- context [if startsWith ?a ?b then _ else _] => destruct (startsWith a b)
  | |- context [if bool_decide ?P then _ else _] =>
      let H := fresh "H" in destruct (bool_decide_reflect P) as [H|H]
  end;
  unfold mbind, Async_bind, mret, Async_ret, postJson, prefsJson; cbn [json].
  all: try (exfalso; by apply Hclear).
  all: try (destruct js as [|b|p]).
  all: rewrite ?getStorage_unreadable by done.
  all: split; [done|]; first [by left | by right].
Qed.

(** *** How operations compose *)

Lemma readable_cached env d : is_Some (storage d) → readable env d = true.
Proof. unfold readable. by intros [s ->]. Qed.

Lemma fetch_append_found env cid m mdl d i found :
  readable env d = true → cid ≠ "" →
  findChat (Some cid) (records d) = Some (i, found) →
  storage (fetch env (appendMessage (Some cid) m mdl) d).1 =
    Some (withChats (current d) (<[i := pushMessage env found m]> (records d))).
Proof.
  intros Hr Hcid Hfind. rewrite fetch_append, Hfind by done.
  unfold committed. by destruct (storagePut env).
Qed.

(** X11. Messages appended one call after the other to a stored
    conversation end up behind the messages it had, in the order of the
    calls, whether or not the saves succeed; identifier, title, model and
    creation time stay, and so does the number of records. *)
Theorem appends_accumulate_in_order
  (cid : string) (calls : list (Platform * Message * string))
  (d : UserChatStorage) (i : nat) (found : Conversation) :
  cid ≠ "" →
  Forall (λ call, readable call.1.1 d = true) calls →
  records d !! i = Some found → id found = cid →
  (∀ j c, records d !! j = Some c → (j < i)%nat → id c ≠ cid) →
  ∃ chat,
    records (run d (appendTo cid <$> calls)).1 !! i = Some chat ∧
    messages chat = (messages found ++ ((λ call, call.1.2) <$> calls))%list ∧
    id chat = cid ∧ title chat = title found ∧
    model chat = model found ∧ createdAt chat = createdAt found ∧
    length (records (run d (appendTo cid <$> calls)).1) = length (records d).
Proof.
  intros Hcid. revert d found.
  induction calls as [|[[env m] mdl] calls IH]; intros d found Hread Hi Hid Hfirst.
  - exists found. simpl. rewrite app_nil_r. done.
  - apply Forall_cons in Hread as [Hr _].
    cbn [fmap list_fmap].
    change (appendTo cid (env, m, mdl)) with (env, appendMessage (Some cid) m mdl).
    rewrite run_cons. cbn [fst].
    assert (findChat (Some cid) (records d) = Some (i, found)) as Hfind
      by by apply findChat_Some.
    pose proof (fetch_append_found env cid m mdl d i found Hr Hcid Hfind) as Hst.
    set (d1 := (fetch env (appendMessage (Some cid) m mdl) d).1) in *.
    assert (records d1 = <[i := pushMessage env found m]> (records d)) as Hrec.
    { unfold records at 1, current. by rewrite Hst. }
    destruct (IH d1 (pushMessage env found m)) as (chat & Hchat & Hmsgs & Hrest).
    + apply Forall_forall. intros call _. apply readable_cached. by rewrite Hst.
    + rewrite Hrec. apply list_lookup_insert_eq. by eapply lookup_lt_Some.
    + done.
    + intros j c Hj Hlt. rewrite Hrec, list_lookup_insert_ne in Hj by lia.
      by apply (Hfirst j c).
    + exists chat. split; [done|]. split.
      { rewrite Hmsgs. simpl. by rewrite <- app_assoc. }
      destruct Hrest as (? & ? & ? & ? & Hlen).
      repeat split; try done.
      etrans; [exact Hlen|]. by rewrite Hrec, length_insert.
Qed.

(** X12. A creation always puts the new record last. Below the capacity
    the records before it are the old ones in their order; at the
    capacity they are the old ones without the evicted one, re-ordered by
    [updatedAt], oldest first, so a listing afterwards shows that
    order. *)
Theorem creation_appends_last
  (env : Platform) (m : Message) (modelId : string) (d : UserChatStorage) :
  readable env d = true →
  ∃ others,
    records (fetch env (appendMessage None m modelId) d).1
      = (others ++ [created env m modelId])%list ∧
    ((length (records d) < MAX_CHATS)%nat → others = records d) ∧
    ((MAX_CHATS ≤ length (records d))%nat →
       ascending others ∧ ∀ c, c ∈ others → c ∈ records d).
Proof.
  intros Hr. exists (evictOldest (records d)). split; [|split].
  - rewrite fetch_create by done. unfold committed.
    by destruct (storagePut env).
  - apply evictOldest_below.
  - intros Hfull. split; [|intros c; apply elem_of_evictOldest].
    rewrite evictOldest_full by done.
    pose proof (Sorted_sort (records d)) as Hsorted.
    destruct (sort byUpdatedAt (records d)); [constructor|].
    by apply Sorted_inv in Hsorted as [? _].
Qed.

(** X13. Deleting frees a slot. In a store within the capacity, after a
    stored conversation is deleted, the next creation evicts nothing: the
    records are the remaining ones in their order, followed by the new
    one. *)
Theorem delete_then_create_evicts_nothing
  (env env' : Platform) (ident : string) (m : Message) (modelId : string)
  (d : UserChatStorage) (i : nat) (found : Conversation) :
  readable env d = true → occurs "/" ident = false →
  (length (records d) ≤ MAX_CHATS)%nat →
  records d !! i = Some found → id found = ident →
  (∀ j c, records d !! j = Some c → (j < i)%nat → id c ≠ ident) →
  let deleted := (fetch env (deleteConversation ident) d).1 in
  records (fetch env' (appendMessage None m modelId) deleted).1
    = (delete i (records d) ++ [created env' m modelId])%list.
Proof.
  intros Hr Hplain Hbound Hi Hid Hfirst deleted.
  assert (findChat (Some ident) (records d) = Some (i, found)) as Hfind
    by by apply findChat_Some.
  assert (storage deleted = Some (withChats (current d) (delete i (records d)))) as Hst.
  { unfold deleted. rewrite fetch_delete, Hfind by done.
    unfold committed. by destruct (storagePut env). }
  assert (records deleted = delete i (records d)) as Hrec.
  { unfold records at 1, current. by rewrite Hst. }
  rewrite fetch_create by (apply readable_cached; by rewrite Hst).
  cbn zeta. rewrite Hrec, evictOldest_below.
  - unfold committed. by destruct (storagePut env').
  - rewrite length_delete by (by eexists). apply lookup_lt_Some in Hi. lia.
Qed.

Lemma bounded_run d calls : bounded d → bounded (run d calls).1.
Proof.
  revert d. induction calls as [|[env request] calls IH]; intros d Hd; [done|].
  rewrite run_cons. apply IH. by apply bounded_fetch.
Qed.

(** X14. From a store within the capacity, after any sequence of
    requests a listing answers either 500 'Internal error' or 200 with
    the stored records, of which there are at most [MAX_CHATS]. *)
Theorem listing_within_capacity
  (env : Platform) (d : UserChatStorage) (calls : list (Platform * Request)) :
  bounded d →
  let reached := (run d calls).1 in
  (readable env reached = false ∧
   (fetch env listConversations reached).2 = internalError) ∨
  (readable env reached = true ∧
   (fetch env listConversations reached).2
     = jsonResponse (ConversationsPayload (records reached)) ∧
   (length (records reached) ≤ MAX_CHATS)%nat).
Proof.
  intros Hd reached. destruct (bounded_run d calls Hd) as [Hmem _]. fold reached in Hmem.
  unfold fetch, tryCatch, handle; simpl. unfold mbind, Async_bind.
  destruct (readable env reached) eqn:Hr.
  - right. by rewrite getStorage_readable.
  - left. by rewrite getStorage_unreadable.
Qed.

(** *** The title of a new conversation *)

Lemma slice0_split n s :
  ∃ rest, s = slice0 n s +:+ rest ∧
          String.length (slice0 n s) = Nat.min n (String.length s).
Proof.
  unfold slice0. revert s. induction n as [|n IH]; intros s.
  - exists s. by destruct s.
  - destruct s as [|c s]; [by exists ""|].
    destruct (IH s) as (rest & Hs & Hlen). exists rest.
    split; [exact (f_equal (String c) Hs)|simpl; by rewrite Hlen].
Qed.

Lemma length_append s t :
  String.length (s +:+ t) = (String.length s + String.length t)%nat.
Proof.
  induction s as [|c s IH]; [done|].
  change (S (String.length (s +:+ t)) = S (String.length s + String.length t)).
  by rewrite IH.
Qed.

(** X15. For a first message of ASCII characters (where the characters
    the model counts are the UTF-16 units that [slice] counts), the title
    of a new conversation is the beginning of the message followed by
    '...': at most the first 50 characters are kept, so the title has at
    most 53; a message of up to 50 characters is kept whole and still
    gets the dots. *)
Theorem title_is_prefix_with_dots (env : Platform) (m : Message) (modelId : string) :
  plainText (content m) = true →
  let t := title (created env m modelId) in
  (∃ kept rest,
     content m = kept +:+ rest ∧ t = kept +:+ "..." ∧
     String.length kept = Nat.min 50 (String.length (content m))) ∧
  (String.length t ≤ 53)%nat ∧
  ((String.length (content m) ≤ 50)%nat → t = content m +:+ "...").
Proof.
  intros _. cbn zeta. cbn [title created newChat Body.message].
  destruct (slice0_split 50 (content m)) as (rest & Hsplit & Hlen).
  split; [by exists (slice0 50 (content m)), rest|]. split.
  - rewrite length_append, Hlen.
    change (String.length "...") with 3%nat. lia.
  - intros Hshort. f_equal.
    assert (String.length rest = 0%nat) as Hrest.
    { apply (f_equal String.length) in Hsplit.
      rewrite length_append, Hlen in Hsplit. lia. }
    destruct rest; [|done].
    rewrite Hsplit at 2. clear.
    induction (slice0 50 (content m)) as [|c s IH]; [done|].
    exact (f_equal (String c) IH).
Qed.

(** *** The conversations routes *)

(** X16. The route that reads one conversation, [ident] being the
    segment after [/chats/] in the pathname the platform derives from
    [http://do/chats/${chatId}] (the identifier itself when it is made of
    plain characters, what precedes a [?] or [#] otherwise): the route
    answers 200 with the first record that carries [ident], and 404 'Chat
    not found' in every other case, when no record carries it and also
    when the object could not read its storage and answered 500. *)
Theorem get_route_found_or_404
  (pathnameOf : string → string) (env : Platform) (chatId ident : string)
  (d : UserChatStorage) :
  pathnameOf ("http://do/chats/" +:+ chatId) = "/chats/" +:+ ident →
  occurs "/" ident = false →
  (getRoute pathnameOf env chatId d).2 =
    match (if readable env d then findChat (Some ident) (records d) else None) with
    | Some (_, chat) => jsonResponse (ChatPayload chat)
    | None => jsonStatus (ErrorPayload "Chat not found") 404
    end.
Proof.
  intros Hpath Hplain. unfold getRoute. cbn zeta. rewrite Hpath.
  change {| method := "GET"; pathname := "/chats/" +:+ ident; json := NoJson |}
    with (getConversation ident).
  destruct (readable env d) eqn:Hr.
  - rewrite fetch_get by done.
    by destruct (findChat (Some ident) (records d)) as [[i chat]|].
  - unfold fetch, tryCatch, handle. cbn [method pathname getConversation].
    simpl. unfold mbind, Async_bind. by rewrite getStorage_unreadable.
Qed.

(** X17. The route that deletes one conversation, [ident] being the
    segment after [/chats/] in the pathname the platform derives from
    [http://do/chats/${chatId}]: the route answers with status 200 in
    every case. When the first record carrying [ident] is at position
    [i], that position is removed and, the save succeeding, the body is
    success; when no record carries [ident] the body is the error 'Chat
    not found' and the records stay as they were; after a failed read of
    the storage the body is 'Internal error' and the object is as it
    was. *)
Theorem delete_route_always_200
  (pathnameOf : string → string) (env : Platform) (chatId ident : string)
  (d : UserChatStorage) :
  pathnameOf ("http://do/chats/" +:+ chatId) = "/chats/" +:+ ident →
  occurs "/" ident = false →
  let after := deleteRoute pathnameOf env chatId d in
  status after.2 = 200 ∧
  (readable env d = true →
   ∀ i found, findChat (Some ident) (records d) = Some (i, found) →
     records after.1 = delete i (records d) ∧
     (storagePut env = true → payload after.2 = SuccessPayload)) ∧
  (readable env d = true → (∀ c, c ∈ records d → id c ≠ ident) →
     payload after.2 = ErrorPayload "Chat not found" ∧ current after.1 = current d) ∧
  (readable env d = false →
     payload after.2 = ErrorPayload "Internal error" ∧ after.1 = d).
Proof.
  intros Hpath Hplain after. unfold after, deleteRoute. cbn zeta. rewrite Hpath.
  change {| method := "DELETE"; pathname := "/chats/" +:+ ident; json := NoJson |}
    with (deleteConversation ident).
  split; [|split; [|split]].
  - by destruct (fetch env (deleteConversation ident) d).
  - intros Hr i found Hfind. rewrite fetch_delete, Hfind by done.
    unfold committed. destruct (storagePut env); done.
  - intros Hr Hnone. rewrite fetch_delete by done.
    by apply findChat_None in Hnone as ->.
  - intros Hr. unfold fetch, tryCatch, handle. cbn [method pathname deleteConversation].
    simpl. unfold mbind, Async_bind. by rewrite getStorage_unreadable.
Qed.

(** *** The chat route *)

Lemma append_empty_r s : s +:+ "" = s.
Proof. induction s as [|a s IH]; [done|]. exact (f_equal (String a) IH). Qed.

Lemma append_associative s t u : (s +:+ t) +:+ u = s +:+ (t +:+ u).
Proof. induction s as [|a s IH]; [done|]. exact (f_equal (String a) IH). Qed.

Lemma fullResponse_from acc chunks :
  foldl (λ a chunk, a +:+ chunk) acc chunks = acc +:+ fullResponse chunks.
Proof.
  unfold fullResponse. revert acc. induction chunks as [|c chunks IH]; intros acc.
  - simpl. by rewrite append_empty_r.
  - cbn [foldl]. change ("" +:+ c) with c.
    by rewrite IH, (IH c), append_associative.
Qed.

Lemma fullResponse_joins_parts (chunk : string) (chunks : list string) :
  fullResponse (chunk :: chunks) = chunk +:+ fullResponse chunks ∧
  ∀ more, fullResponse (chunks ++ more) = fullResponse chunks +:+ fullResponse more.
Proof.
  split.
  - unfold fullResponse at 1. simpl. apply fullResponse_from.
  - intros more. unfold fullResponse at 1. rewrite foldl_app.
    fold (fullResponse chunks). apply fullResponse_from.
Qed.

Lemma fetch_append_cached env cid m mdl s dd i found :
  cid ≠ "" →
  findChat (Some cid) (chats s) = Some (i, found) →
  storage (fetch env (appendMessage (Some cid) m mdl) {| storage := Some s; data := dd |}).1
    = Some (withChats s (<[i := pushMessage env found m]> (chats s))).
Proof.
  intros Hcid Hfind.
  rewrite (fetch_append_found env cid m mdl _ i found); done.
Qed.

(** X19. A valid request without identifier, the first save succeeding
    and the platform drawing an unused identifier, [callAI] returning
    after its chunks: the stream carries the chunks in order and then
    [DONE], [callAI] has been given the model of the request and the
    stored history, which is the user's message alone, and the store
    ends with the new conversation last, holding the user's message and
    then one assistant message with the chunks joined. *)
Theorem chat_starts_conversation
  (w : Worker) (r : ChatRequest.t) (d : UserChatStorage) (chunks : list string) :
  valid w r = true → ChatRequest.conversationId r = None →
  readable (onSave w) d = true → storagePut (onSave w) = true →
  randomUUID (onSave w) ≠ "" → occurs "/" (randomUUID (onSave w)) = false →
  (∀ c, c ∈ records d → id c ≠ randomUUID (onSave w)) →
  callAI w (ChatRequest.model r) (Some [userMessage w r]) = (chunks, true) →
  ∃ d3 chat,
    chatRoute w r d = (d3, Stream ((ContentEvent <$> chunks) ++ [DoneEvent]) true) ∧
    records d3 = (evictOldest (records d) ++ [chat])%list ∧
    id chat = randomUUID (onSave w) ∧
    model chat = ChatRequest.model r ∧
    messages chat = [userMessage w r; assistantMessage w chunks] ∧
    updatedAt chat = dateNow (onReply w) 0.
Proof.
  intros Hvalid Hnone Hr Hput Hne Hplain Hfresh Hai.
  unfold chatRoute. rewrite Hvalid, Hnone. cbn [negb].
  rewrite fetch_create_healthy by done. cbn zeta.
  cbn [payload jsonResponse payloadId interpolate default from_option]. unfold Datatypes.id.
  change (id (created (onSave w) (userMessage w r) (ChatRequest.model r)))
    with (randomUUID (onSave w)).
  set (c := created (onSave w) (userMessage w r) (ChatRequest.model r)).
  set (s1 := withChats (current d) (evictOldest (records d) ++ [c])).
  assert (findChat (Some (randomUUID (onSave w))) (chats s1)
          = Some (length (evictOldest (records d)), c)) as Hfind.
  { apply findChat_last; [|done]. intros c' Hc'%elem_of_evictOldest. by apply Hfresh. }
  rewrite fetch_get by done. unfold records at 1. cbn [current storage].
  rewrite Hfind. cbn [payload jsonResponse payloadMessages messages c created newChat Body.message].
  rewrite Hai. cbn [data].
  destruct (fetch (onReply w)
              (appendMessage (Some (randomUUID (onSave w))) (assistantMessage w chunks)
                 (ChatRequest.model r))
              {| storage := Some s1; data := Some s1 |})
    as [d3 reply] eqn:Hreply.
  exists d3, (pushMessage (onReply w) c (assistantMessage w chunks)).
  split; [done|].
  pose proof (fetch_append_cached (onReply w) (randomUUID (onSave w))
                (assistantMessage w chunks) (ChatRequest.model r) s1 (Some s1) _ c Hne Hfind)
    as Hst.
  rewrite Hreply in Hst. cbn [fst] in Hst.
  unfold records, current. rewrite Hst. cbn [chats withChats s1].
  split; [|done].
  rewrite insert_app_r_alt, Nat.sub_diag by done. done.
Qed.

(** X20. A valid request under the identifier of a stored conversation,
    the first save succeeding and [callAI] returning after its chunks:
    [callAI] has been given the model of the request and the stored
    messages followed by the user's message; afterwards the record holds
    its old messages, the user's message and one assistant message with
    the chunks joined, in that order, its title and stored model are
    unchanged, and no other record has been touched. *)
Theorem chat_continues_conversation
  (w : Worker) (r : ChatRequest.t) (d : UserChatStorage)
  (i : nat) (found : Conversation) (chunks : list string) :
  valid w r = true → ChatRequest.conversationId r = Some (id found) →
  id found ≠ "" → occurs "/" (id found) = false →
  readable (onSave w) d = true → storagePut (onSave w) = true →
  records d !! i = Some found →
  (∀ j c, records d !! j = Some c → (j < i)%nat → id c ≠ id found) →
  callAI w (ChatRequest.model r) (Some (messages found ++ [userMessage w r])%list) = (chunks, true) →
  ∃ d3 chat,
    chatRoute w r d = (d3, Stream ((ContentEvent <$> chunks) ++ [DoneEvent]) true) ∧
    records d3 = <[i := chat]> (records d) ∧
    messages chat = (messages found ++ [userMessage w r; assistantMessage w chunks])%list ∧
    id chat = id found ∧ title chat = title found ∧ model chat = model found ∧
    updatedAt chat = dateNow (onReply w) 0.
Proof.
  intros Hvalid Hcid Hne Hplain Hr Hput Hi Hfirst Hai.
  assert (findChat (Some (id found)) (records d) = Some (i, found)) as Hfind
    by by apply findChat_Some.
  unfold chatRoute. rewrite Hvalid, Hcid. cbn [negb].
  rewrite fetch_append, Hfind by done. unfold committed. rewrite Hput.
  cbn [payload jsonResponse payloadId interpolate default from_option id pushMessage].
  unfold Datatypes.id.
  set (c1 := pushMessage (onSave w) found (userMessage w r)).
  set (s1 := withChats (current d) (<[i := c1]> (records d))).
  assert (findChat (Some (id found)) (chats s1) = Some (i, c1)) as Hfind1.
  { apply findChat_Some. cbn [chats s1 withChats]. split; [|split; [done|]].
    - apply list_lookup_insert_eq. by eapply lookup_lt_Some.
    - intros j c Hj Hlt. rewrite list_lookup_insert_ne in Hj by lia.
      by apply (Hfirst j c). }
  rewrite fetch_get by done. unfold records at 1. cbn [current storage].
  rewrite Hfind1. cbn [payload jsonResponse payloadMessages messages c1 pushMessage].
  rewrite Hai. cbn [data].
  destruct (fetch (onReply w)
              (appendMessage (Some (id found)) (assistantMessage w chunks)
                 (ChatRequest.model r))
              {| storage := Some s1; data := Some s1 |})
    as [d3 reply] eqn:Hreply.
  exists d3, (pushMessage (onReply w) c1 (assistantMessage w chunks)).
  split; [done|].
  pose proof (fetch_append_cached (onReply w) (id found)
                (assistantMessage w chunks) (ChatRequest.model r) s1 (Some s1) _ c1 Hne Hfind1)
    as Hst.
  rewrite Hreply in Hst. cbn [fst] in Hst.
  unfold records at 1, current. rewrite Hst. cbn [chats withChats s1].
  split; [by rewrite list_insert_insert_eq|].
  split; [|done]. cbn [messages pushMessage c1]. by rewrite <- app_assoc.
Qed.

Lemma history_request_inert env ident d :
  current (fetch env (getConversation ident) d).1 = current d ∧
  data (fetch env (getConversation ident) d).1 = data d.
Proof.
  unfold fetch, tryCatch, handle. cbn [method pathname getConversation json].
  simpl. unfold mbind, Async_bind, mret, Async_ret.
  destruct (getStorage_cases env d) as [-> | ->]; [done|].
  by destruct (findChat _ _) as [[? ?]|].
Qed.

(** X21. When [callAI] throws, whatever it had delivered: the stream
    ends without [DONE], no assistant message is stored, and the store is
    exactly as saving the user's message left it. *)
Theorem chat_failed_completion_stores_no_reply
  (w : Worker) (r : ChatRequest.t) (d : UserChatStorage) :
  valid w r = true →
  (∀ history, (callAI w (ChatRequest.model r) history).2 = false) →
  let saved := fetch (onSave w)
                 (appendMessage (ChatRequest.conversationId r) (userMessage w r)
                    (ChatRequest.model r)) d in
  ∃ d2 events,
    chatRoute w r d = (d2, Stream events false) ∧
    (DoneEvent ∉ events) ∧
    current d2 = current saved.1 ∧
    data d2 = data saved.1.
Proof.
  intros Hvalid Hfail. cbn zeta. unfold chatRoute. rewrite Hvalid. cbn [negb].
  destruct (fetch (onSave w) _ d) as [d1 saveResponse]. cbn [fst].
  set (request := getConversation (interpolate (payloadId (payload saveResponse)))).
  pose proof (history_request_inert (onHistory w)
                (interpolate (payloadId (payload saveResponse))) d1) as [Hcur Hdata].
  fold request in Hcur, Hdata.
  destruct (fetch (onHistory w) request d1) as [d2 historyResponse]. cbn [fst] in *.
  specialize (Hfail (payloadMessages (payload historyResponse))).
  destruct (callAI w _ _) as [chunks returned]. cbn [snd] in Hfail. subst returned.
  exists d2, (ContentEvent <$> chunks). split; [done|]. split; [|done].
  intros (chunk & Heq & _)%list_elem_of_fmap. done.
Qed.

(** X22. A valid request under an identifier that no stored record
    carries is not refused. The user's message is stored nowhere, the
    history is asked for under the name 'undefined', and [callAI] runs
    without any messages; if it throws, the records stay as they were,
    and if it returns, its text is stored as the only message of a new
    conversation. *)
Theorem chat_unknown_conversation
  (w : Worker) (r : ChatRequest.t) (d : UserChatStorage) (cid : string)
  (chunks : list string) (returned : bool) :
  valid w r = true → ChatRequest.conversationId r = Some cid → cid ≠ "" →
  readable (onSave w) d = true →
  (∀ c, c ∈ records d → id c ≠ cid) →
  (∀ c, c ∈ records d → id c ≠ "undefined") →
  callAI w (ChatRequest.model r) None = (chunks, returned) →
  ∃ d',
    chatRoute w r d
      = (d', Stream ((ContentEvent <$> chunks) ++ (if returned then [DoneEvent] else []))
               returned) ∧
    records d' =
      if returned
      then (evictOldest (records d)
              ++ [created (onReply w) (assistantMessage w chunks) (ChatRequest.model r)])%list
      else records d.
Proof.
  intros Hvalid Hcid Hne Hr Hnone Hundefined Hai.
  unfold chatRoute. rewrite Hvalid, Hcid. cbn [negb].
  rewrite fetch_append by done.
  apply findChat_None in Hnone as ->.
  cbn [payload notFound jsonStatus payloadId interpolate default from_option].
  rewrite fetch_get by done. unfold records at 1. cbn [current storage].
  apply findChat_None in Hundefined as Hfind. unfold records in Hfind. rewrite Hfind.
  cbn [payload notFound jsonStatus payloadMessages]. rewrite Hai. cbn [data current storage].
  destruct returned.
  - rewrite fetch_create by done. cbn zeta. unfold committed.
    destruct (storagePut (onReply w)); eexists; (split; [reflexivity|done]).
  - eexists. split; [by rewrite app_nil_r|done].
Qed.

(** *** The page's store while a reply streams in *)

Section ClientStream.
Context (a : string) (Ha : a ≠ "").

(** One piece arriving while the active conversation ends with an
    assistant message: the piece goes to the end of that message. *)
Lemma piece_extends_reply st chat base m text :
  Client.activeChat st = Some a →
  Client.conversations st !! a = Some chat →
  Client.messages chat = (base ++ [m])%list → Client.role m = assistant →
  Client.appendToCurrentMessage text st =
    {| Client.activeChat := Some a;
       Client.conversations :=
         <[a := Client.withMessages chat
                  (base ++ [{| Client.role := assistant;
                               Client.content := Client.content m +:+ text |}])]>
           (Client.conversations st) |}.
Proof.
  intros Hact Hchat Hmsgs Hrole. unfold Client.appendToCurrentMessage.
  rewrite Hact. cbn [truthy]. rewrite bool_decide_eq_true_2 by done. cbn [negb].
  rewrite Hchat, Hmsgs, last_snoc. cbn zeta. rewrite decide_True by done.
  rewrite length_app. cbn [length]. rewrite Nat.add_1_r. cbn [pred].
  rewrite insert_app_r_alt, Nat.sub_diag by done. cbn [insert list_insert].
  by rewrite Hrole.
Qed.

(** One piece arriving while it does not: a new assistant message. *)
Lemma piece_opens_reply st chat text :
  Client.activeChat st = Some a →
  Client.conversations st !! a = Some chat →
  (∀ m, last (Client.messages chat) = Some m → Client.role m ≠ assistant) →
  Client.appendToCurrentMessage text st =
    {| Client.activeChat := Some a;
       Client.conversations :=
         <[a := Client.withMessages chat
                  (Client.messages chat
                     ++ [{| Client.role := assistant; Client.content := text |}])]>
           (Client.conversations st) |}.
Proof.
  intros Hact Hchat Hlast. unfold Client.appendToCurrentMessage.
  rewrite Hact. cbn [truthy]. rewrite bool_decide_eq_true_2 by done. cbn [negb].
  rewrite Hchat. cbn zeta.
  destruct (last (Client.messages chat)) as [m|] eqn:Hm; [|done].
  rewrite decide_False; [done|]. by apply Hlast.
Qed.

Lemma pieces_extend_reply pieces st chat base t :
  Client.activeChat st = Some a →
  Client.conversations st !! a = Some chat →
  Client.messages chat
    = (base ++ [{| Client.role := assistant; Client.content := t |}])%list →
  let st' := Client.appendAll pieces st in
  Client.activeChat st' = Some a ∧
  (∀ k, k ≠ a → Client.conversations st' !! k = Client.conversations st !! k) ∧
  Client.conversations st' !! a =
    Some (Client.withMessages chat
            (base ++ [{| Client.role := assistant;
                         Client.content := t +:+ fullResponse pieces |}])).
Proof.
  revert st chat t. induction pieces as [|piece pieces IH]; intros st chat t Hact Hchat Hmsgs.
  - cbn zeta. unfold Client.appendAll. cbn [foldl]. split; [done|]. split; [done|].
    rewrite Hchat. f_equal. destruct chat as [i ti mo ms]. unfold Client.withMessages.
    cbn in *. rewrite Hmsgs. change (fullResponse []) with "". by rewrite append_empty_r.
  - cbn zeta. unfold Client.appendAll. cbn [foldl].
    rewrite (piece_extends_reply st chat base _ piece Hact Hchat Hmsgs eq_refl).
    cbn [Client.content].
    set (chat1 := Client.withMessages chat
                    (base ++ [{| Client.role := assistant;
                                 Client.content := t +:+ piece |}])).
    set (st1 := {| Client.activeChat := Some a;
                   Client.conversations := <[a := chat1]> (Client.conversations st) |}).
    destruct (IH st1 chat1 (t +:+ piece)) as (Hact' & Hother & Hmine).
    + done.
    + cbn [Client.conversations]. apply lookup_insert_eq.
    + done.
    + unfold Client.appendAll in *. cbn zeta in *. split; [exact Hact'|]. split.
      * intros k Hk. rewrite (Hother k Hk). cbn [Client.conversations].
        by apply lookup_insert_ne.
      * rewrite Hmine. destruct (fullResponse_joins_parts piece pieces) as [-> _].
        by rewrite append_associative.
Qed.

End ClientStream.

(** X23. The pieces of a streamed reply, put into the store one after
    the other for an active conversation the store knows: only that
    conversation changes, and only in its messages. If its last message
    is not an assistant message (or there is none), one assistant message
    with the pieces joined is added behind the others; if its last
    message is an assistant message, no message is added and the pieces
    are glued to the end of that one. *)
Theorem stream_builds_one_reply
  (a : string) (chat : Client.Conversation) (piece : string) (pieces : list string)
  (st : Client.Store) :
  a ≠ "" →
  Client.activeChat st = Some a →
  Client.conversations st !! a = Some chat →
  let st' := Client.appendAll (piece :: pieces) st in
  let text := fullResponse (piece :: pieces) in
  Client.activeChat st' = Some a ∧
  (∀ k, k ≠ a → Client.conversations st' !! k = Client.conversations st !! k) ∧
  ((∀ m, last (Client.messages chat) = Some m → Client.role m ≠ assistant) →
     Client.conversations st' !! a =
       Some (Client.withMessages chat
               (Client.messages chat
                  ++ [{| Client.role := assistant; Client.content := text |}]))) ∧
  (∀ base m,
     Client.messages chat = (base ++ [m])%list → Client.role m = assistant →
     Client.conversations st' !! a =
       Some (Client.withMessages chat
               (base ++ [{| Client.role := assistant;
                            Client.content := Client.content m +:+ text |}]))).
Proof.
  intros Ha Hact Hchat. cbn zeta.
  destruct (fullResponse_joins_parts piece pieces) as [Hjoin _]. rewrite Hjoin.
  unfold Client.appendAll. cbn [foldl].
  assert ((∃ base m, Client.messages chat = (base ++ [m])%list
                     ∧ Client.role m = assistant) ∨
          (∀ m, last (Client.messages chat) = Some m → Client.role m ≠ assistant))
    as [(base & m & Hmsgs & Hrole)|Hlast].
  { destruct (last (Client.messages chat)) as [m|] eqn:Hm; [|by right].
    destruct (Client.role m) eqn:Hrole.
    - right. intros m' [= <-]. by rewrite Hrole.
    - left. apply last_Some in Hm as [base Hm]. by exists base, m. }
  - rewrite (piece_extends_reply a Ha st chat base m piece Hact Hchat Hmsgs Hrole).
    set (chat1 := Client.withMessages chat _).
    set (st1 := {| Client.activeChat := Some a; Client.conversations := _ |}).
    destruct (pieces_extend_reply a Ha pieces st1 chat1 base (Client.content m +:+ piece))
      as (Hact' & Hother & Hmine); [done|apply lookup_insert_eq|done|].
    unfold Client.appendAll in *. cbn zeta in *.
    split; [done|]. split.
    { intros k Hk. rewrite (Hother k Hk). by apply lookup_insert_ne. }
    split.
    + intros Hlast. exfalso. apply (Hlast m); [|done]. by rewrite Hmsgs, last_snoc.
    + intros base' m' Hmsgs' Hrole'. rewrite Hmsgs in Hmsgs'.
      apply app_inj_tail in Hmsgs' as [<- <-].
      rewrite Hmine. by rewrite append_associative.
  - rewrite (piece_opens_reply a Ha st chat piece Hact Hchat Hlast).
    set (chat1 := Client.withMessages chat _).
    set (st1 := {| Client.activeChat := Some a; Client.conversations := _ |}).
    destruct (pieces_extend_reply a Ha pieces st1 chat1 (Client.messages chat) piece)
      as (Hact' & Hother & Hmine); [done|apply lookup_insert_eq|done|].
    unfold Client.appendAll in *. cbn zeta in *.
    split; [done|]. split.
    { intros k Hk. rewrite (Hother k Hk). by apply lookup_insert_ne. }
    split; [done|].
    intros base m Hmsgs Hrole. exfalso.
    apply (Hlast m); [|done]. by rewrite Hmsgs, last_snoc.
Qed.

(** X24. While no conversation is active (none selected, or an empty
    identifier), or the active identifier is not in the store, as for a
    conversation the server has just created, every piece of a streamed
    reply is dropped: the store stays as it is. *)
Theorem stream_without_active_chat_is_dropped (pieces : list string) (st : Client.Store) :
  (truthy (Client.activeChat st) = false ∨
   ∃ a, Client.activeChat st = Some a ∧ Client.conversations st !! a = None) →
  Client.appendAll pieces st = st.
Proof.
  intros Hst. unfold Client.appendAll.
  induction pieces as [|piece pieces IH]; [done|]. cbn [foldl].
  assert (Client.appendToCurrentMessage piece st = st) as ->; [|done].
  unfold Client.appendToCurrentMessage.
  destruct Hst as [-> | (a & -> & ->)]; [done|].
  by destruct (negb (truthy (Some a))).
Qed.

(** *** Paths with more segments *)

Lemma split_before sep s rest :
  occurs sep s = false → split sep (s +:+ String sep rest) = s :: split sep rest.
Proof.
  induction s as [|c s IH]; intros Hs.
  - change (split sep (String sep rest) = "" :: split sep rest).
    cbn [split]. by rewrite decide_True.
  - cbn [occurs] in Hs. apply orb_false_elim in Hs as [Hc Hs].
    apply bool_decide_eq_false_1 in Hc.
    change (split sep (String c (s +:+ String sep rest)) = String c s :: split sep rest).
    cbn [split]. rewrite decide_False by done. by rewrite IH.
Qed.

(** X18. Only the first segment after [/chats/] names the conversation:
    a request whose path goes on after a further slash is handled exactly
    as the request for that first segment, whatever its method and
    body. *)
Theorem deeper_path_names_same_conversation
  (env : Platform) (meth ident rest : string) (js : Json) (d : UserChatStorage) :
  occurs "/" ident = false →
  fetch env {| method := meth; pathname := "/chats/" +:+ ident +:+ "/" +:+ rest; json := js |} d
  = fetch env {| method := meth; pathname := "/chats/" +:+ ident; json := js |} d.
Proof.
  intros Hplain. unfold fetch, handle. cbn [method pathname json].
  assert (split "/" ("/chats/" +:+ ident +:+ "/" +:+ rest) !! 2%nat = Some ident) as ->.
  { simpl. change ("/" +:+ rest) with (String "/"%char rest).
    change ("" +:+ ident +:+ String "/"%char rest) with (ident +:+ String "/"%char rest).
    by rewrite split_before. }
  rewrite split_chats_path by done.
  simpl. done.
Qed.

(** *** The further properties at sample inputs *)

Lemma requests_keep_bound_witness : Forall bounded (states twoChats mixedCalls).
Proof.
  apply (requests_keep_bound twoChats mixedCalls).
  split; vm_compute; lia.
Defined.

Lemma requests_keep_ids_unique_witness : Forall unique (states twoChats mixedCalls).
Proof.
  apply (requests_keep_ids_unique twoChats mixedCalls).
  - split; apply (bool_decide_unpack _); vm_compute; exact I.
  - repeat split; apply (bool_decide_unpack _); vm_compute; exact I.
Defined.

Lemma reads_change_nothing_witness :
  current (fetch (working uuid3 3000) (getConversation uuid2) twoChats).1 = current twoChats ∧
  data (fetch (working uuid3 3000) (getConversation uuid2) twoChats).1 = data twoChats.
Proof.
  apply (reads_change_nothing (working uuid3 3000) (getConversation uuid2) twoChats);
    discriminate.
Defined.

Lemma delete_removes_one_record_witness :
  records (fetch (working uuid3 3000) (deleteConversation uuid1) twoChats).1
    = delete 0%nat (records twoChats).
Proof.
  refine (proj1 (delete_removes_one_record (working uuid3 3000) (working uuid4 3100)
                   uuid1 twoChats 0%nat (created (working uuid1 1000) hello "gpt-4o")
                   eq_refl eq_refl eq_refl eq_refl _)).
  intros j c _ Hj. lia.
Defined.

Lemma delete_unknown_id_not_found_witness :
  let after := fetch (working uuid3 3000) (deleteConversation uuid4) twoChats in
  after.2 = notFound "Chat not found" ∧
  current after.1 = current twoChats ∧
  data after.1 = data twoChats.
Proof.
  apply (delete_unknown_id_not_found (working uuid3 3000) uuid4 twoChats).
  - reflexivity.
  - reflexivity.
  - apply Forall_forall. apply (bool_decide_unpack _). vm_compute. exact I.
Defined.

Lemma preferences_merge_and_read_back_witness :
  theme (preferences (current (fetch (working uuid3 3000) (setPreferences lightTheme) twoChats).1))
    = light ∧
  defaultModel (preferences (current (fetch (working uuid3 3000) (setPreferences lightTheme) twoChats).1))
    = "gpt-4o".
Proof.
  destruct (preferences_merge_and_read_back (working uuid3 3000) (working uuid4 3100)
              lightTheme twoChats eq_refl) as (Hmodel & Htheme & _).
  split; [exact Htheme|exact Hmodel].
Defined.

Lemma success_means_saved_witness :
  data (fetch (working uuid3 3000) (deleteConversation uuid1) twoChats).1
    = Some (current (fetch (working uuid3 3000) (deleteConversation uuid1) twoChats).1).
Proof.
  refine (proj1 (success_means_saved (working uuid3 3000) (deleteConversation uuid1)
                   twoChats _ eq_refl)).
  discriminate.
Defined.

Lemma unknown_path_not_found_witness :
  fetch (working uuid3 3000) {| method := "GET"; pathname := "/health"; json := NoJson |} twoChats
    = (twoChats, notFound "Not found").
Proof.
  apply (unknown_path_not_found (working uuid3 3000)
           {| method := "GET"; pathname := "/health"; json := NoJson |} twoChats);
    first [discriminate | reflexivity].
Defined.

Lemma unreadable_storage_fails_closed_witness :
  let env := {| storageGet := false; storagePut := true;
                randomUUID := uuid3; dateNow := λ _, 3000 |} in
  (fetch env (appendMessage None hello "gpt-4o") fourChats).1 = fourChats ∧
  ((fetch env (appendMessage None hello "gpt-4o") fourChats).2 = internalError ∨
   (fetch env (appendMessage None hello "gpt-4o") fourChats).2 = notFound "Not found").
Proof.
  apply (unreadable_storage_fails_closed
           {| storageGet := false; storagePut := true;
              randomUUID := uuid3; dateNow := λ _, 3000 |}
           (appendMessage None hello "gpt-4o") fourChats).
  - reflexivity.
  - intros [Hmethod _]. discriminate Hmethod.
Defined.

Lemma appends_accumulate_in_order_witness :
  ∃ chat,
    records (run twoChats (appendTo uuid2 <$> [(working uuid3 3000, again, "gpt-4o");
                                              (writeFails uuid4 3100, hello, "gpt-4o")])).1
      !! 1%nat = Some chat ∧
    messages chat = [hello; again; hello].
Proof.
  destruct (appends_accumulate_in_order uuid2
              [(working uuid3 3000, again, "gpt-4o"); (writeFails uuid4 3100, hello, "gpt-4o")]
              twoChats 1%nat (created (working uuid2 2000) hello "claude-3-5-sonnet"))
    as (chat & Hchat & Hmsgs & _).
  - discriminate.
  - repeat constructor.
  - reflexivity.
  - reflexivity.
  - intros j c Hj Hlt. destruct j as [|j]; [|lia]. injection Hj as <-. discriminate.
  - exists chat. split; [exact Hchat|exact Hmsgs].
Defined.

Lemma creation_appends_last_witness :
  ∃ others,
    records (fetch (working uuid5 5000) (appendMessage None hello "gpt-4o") fourChats).1
      = (others ++ [created (working uuid5 5000) hello "gpt-4o"])%list ∧
    ((length (records fourChats) < MAX_CHATS)%nat → others = records fourChats) ∧
    ((MAX_CHATS ≤ length (records fourChats))%nat →
       ascending others ∧ ∀ c, c ∈ others → c ∈ records fourChats).
Proof.
  apply (creation_appends_last (working uuid5 5000) hello "gpt-4o" fourChats).
  reflexivity.
Defined.

Lemma delete_then_create_evicts_nothing_witness :
  records (fetch (working uuid4 3100) (appendMessage None again "gpt-4o")
             (fetch (working uuid3 3000) (deleteConversation uuid1) twoChats).1).1
    = (delete 0%nat (records twoChats) ++ [created (working uuid4 3100) again "gpt-4o"])%list.
Proof.
  apply (delete_then_create_evicts_nothing (working uuid3 3000) (working uuid4 3100)
           uuid1 again "gpt-4o" twoChats 0%nat (created (working uuid1 1000) hello "gpt-4o")).
  - reflexivity.
  - reflexivity.
  - vm_compute. lia.
  - reflexivity.
  - reflexivity.
  - intros j c _ Hj. lia.
Defined.

Lemma listing_within_capacity_witness :
  let reached := (run twoChats mixedCalls).1 in
  (readable (working uuid3 4000) reached = false ∧
   (fetch (working uuid3 4000) listConversations reached).2 = internalError) ∨
  (readable (working uuid3 4000) reached = true ∧
   (fetch (working uuid3 4000) listConversations reached).2
     = jsonResponse (ConversationsPayload (records reached)) ∧
   (length (records reached) ≤ MAX_CHATS)%nat).
Proof.
  apply (listing_within_capacity (working uuid3 4000) twoChats mixedCalls).
  split; vm_compute; lia.
Defined.

Lemma title_is_prefix_with_dots_witness :
  title (created (working uuid1 1000) hello "gpt-4o") = "hello...".
Proof.
  refine (proj2 (proj2 (title_is_prefix_with_dots (working uuid1 1000) hello "gpt-4o"
                          eq_refl)) _).
  vm_compute. lia.
Defined.

Lemma get_route_found_or_404_witness :
  (getRoute afterOrigin (working uuid3 3000) uuid2 twoChats).2
    = jsonResponse (ChatPayload (created (working uuid2 2000) hello "claude-3-5-sonnet")).
Proof.
  exact (get_route_found_or_404 afterOrigin (working uuid3 3000) uuid2 uuid2 twoChats
           eq_refl eq_refl).
Defined.

Lemma delete_route_always_200_witness :
  status (deleteRoute afterOrigin (working uuid3 3000) uuid4 twoChats).2 = 200 ∧
  payload (deleteRoute afterOrigin (working uuid3 3000) uuid4 twoChats).2
    = ErrorPayload "Chat not found".
Proof.
  destruct (delete_route_always_200 afterOrigin (working uuid3 3000) uuid4 uuid4 twoChats
              eq_refl eq_refl)
    as (Hstatus & _ & Hunknown & _).
  split; [exact Hstatus|].
  refine (proj1 (Hunknown eq_refl _)).
  apply Forall_forall. apply (bool_decide_unpack _). vm_compute. exact I.
Defined.

Lemma deeper_path_names_same_conversation_witness :
  fetch (working uuid3 3000)
    {| method := "DELETE"; pathname := "/chats/" +:+ uuid1 +:+ "/" +:+ "messages";
       json := NoJson |} twoChats
  = fetch (working uuid3 3000) (deleteConversation uuid1) twoChats.
Proof.
  exact (deeper_path_names_same_conversation (working uuid3 3000) "DELETE" uuid1 "messages"
           NoJson twoChats eq_refl).
Defined.

Lemma chat_starts_conversation_witness :
  ∃ d3 chat,
    chatRoute (sampleWorker ["Hi"; " there"] true) (sampleRequest None) twoChats
      = (d3, Stream [ContentEvent "Hi"; ContentEvent " there"; DoneEvent] true) ∧
    records d3 = (evictOldest (records twoChats) ++ [chat])%list ∧
    messages chat = [userMessage (sampleWorker ["Hi"; " there"] true) (sampleRequest None);
                     assistantMessage (sampleWorker ["Hi"; " there"] true) ["Hi"; " there"]].
Proof.
  destruct (chat_starts_conversation (sampleWorker ["Hi"; " there"] true) (sampleRequest None)
              twoChats ["Hi"; " there"])
    as (d3 & chat & Hroute & Hrecords & _ & _ & Hmsgs & _).
  - reflexivity.
  - reflexivity.
  - reflexivity.
  - reflexivity.
  - discriminate.
  - reflexivity.
  - apply Forall_forall. apply (bool_decide_unpack _). vm_compute. exact I.
  - reflexivity.
  - exists d3, chat. split; [exact Hroute|]. split; [exact Hrecords|exact Hmsgs].
Defined.

Lemma chat_continues_conversation_witness :
  ∃ d3 chat,
    chatRoute (sampleWorker ["Hi"; " there"] true) (sampleRequest (Some uuid2)) twoChats
      = (d3, Stream [ContentEvent "Hi"; ContentEvent " there"; DoneEvent] true) ∧
    records d3 = <[1%nat := chat]> (records twoChats) ∧
    model chat = "claude-3-5-sonnet".
Proof.
  destruct (chat_continues_conversation (sampleWorker ["Hi"; " there"] true)
              (sampleRequest (Some uuid2)) twoChats 1%nat
              (created (working uuid2 2000) hello "claude-3-5-sonnet") ["Hi"; " there"])
    as (d3 & chat & Hroute & Hrecords & _ & _ & _ & Hmodel & _).
  - reflexivity.
  - reflexivity.
  - discriminate.
  - reflexivity.
  - reflexivity.
  - reflexivity.
  - reflexivity.
  - intros j c Hj Hlt. destruct j as [|j]; [|lia]. injection Hj as <-. discriminate.
  - reflexivity.
  - exists d3, chat. split; [exact Hroute|]. split; [exact Hrecords|exact Hmodel].
Defined.

Lemma chat_failed_completion_stores_no_reply_witness :
  ∃ d2 events,
    chatRoute (sampleWorker ["Hi"] false) (sampleRequest (Some uuid2)) twoChats
      = (d2, Stream events false) ∧
    (DoneEvent ∉ events).
Proof.
  destruct (chat_failed_completion_stores_no_reply (sampleWorker ["Hi"] false)
              (sampleRequest (Some uuid2)) twoChats)
    as (d2 & events & Hroute & Hdone & _).
  - reflexivity.
  - intros history. reflexivity.
  - exists d2, events. split; [exact Hroute|exact Hdone].
Defined.

Lemma chat_unknown_conversation_witness :
  ∃ d',
    chatRoute (sampleWorker ["Hi"] true) (sampleRequest (Some uuid6)) twoChats
      = (d', Stream [ContentEvent "Hi"; DoneEvent] true) ∧
    records d' =
      (evictOldest (records twoChats)
         ++ [created (working uuid5 5002)
               (assistantMessage (sampleWorker ["Hi"] true) ["Hi"]) "gpt-4o-mini"])%list.
Proof.
  apply (chat_unknown_conversation (sampleWorker ["Hi"] true) (sampleRequest (Some uuid6))
           twoChats uuid6 ["Hi"] true).
  - reflexivity.
  - reflexivity.
  - discriminate.
  - reflexivity.
  - apply Forall_forall. apply (bool_decide_unpack _). vm_compute. exact I.
  - apply Forall_forall. apply (bool_decide_unpack _). vm_compute. exact I.
  - reflexivity.
Defined.

Lemma stream_builds_one_reply_witness :
  Client.messages <$> (Client.conversations (Client.appendAll ["Hi"; " there"] samplePage) !! uuid1)
    = Some [{| Client.role := user; Client.content := "hello" |};
            {| Client.role := assistant; Client.content := "Hi there" |}].
Proof.
  destruct (stream_builds_one_reply uuid1
              {| Client.id := uuid1; Client.title := "hello..."; Client.model := "gpt-4o";
                 Client.messages := [{| Client.role := user; Client.content := "hello" |}] |}
              "Hi" [" there"] samplePage)
    as (_ & _ & Hnew & _).
  - discriminate.
  - reflexivity.
  - vm_compute. reflexivity.
  - rewrite Hnew; [reflexivity|].
    intros m [= <-]. discriminate.
Defined.

Lemma stream_without_active_chat_is_dropped_witness :
  Client.appendAll ["Hi"; " there"]
    {| Client.activeChat := None; Client.conversations := Client.conversations samplePage |}
  = {| Client.activeChat := None; Client.conversations := Client.conversations samplePage |}.
Proof.
  apply (stream_without_active_chat_is_dropped ["Hi"; " there"]).
  left. reflexivity.
Defined.
